(** * gevent.libuv.watcher: watcher lifecycle and I/O multiplexing

    A shallow embedding of [src/gevent/libuv/watcher.py].  Python methods
    that mutate [self] or call into libuv become functions in a small
    state-and-exception monad; the libuv C library is an explicit native
    layer whose memory, call log and status codes are part of the state. *)

From Stdlib Require Import ZArith List Bool String Floats Lia.
From stdpp Require Import base option list gmap strings.

Local Open Scope string_scope.
Local Open Scope list_scope.
Local Open Scope Z_scope.

(** ** Python exceptions and the state/exception monad *)

Inductive exn : Type :=
| UVFuncallError (msg : string)   (* class UVFuncallError(ValueError) *)
| ValueError (msg : string)
| TypeError
| OverflowError
| AttributeError
| AssertionError
| KeyError
| NotImplementedError
| UseAfterCloseError
| Exception_ (msg : string).

(** [except ValueError] also catches the subclass [UVFuncallError]. *)
Definition is_ValueError (e : exn) : bool :=
  match e with
  | UVFuncallError _ | ValueError _ => true
  | _ => false
  end.

Inductive outcome (S A : Type) : Type :=
| Ok (a : A) (s : S)
| Raise (e : exn) (s : S).
Arguments Ok {S A} a s.
Arguments Raise {S A} e s.

Definition M (S A : Type) : Type := S -> outcome S A.

Definition ret {S A} (a : A) : M S A := fun s => Ok a s.
Definition raise {S A} (e : exn) : M S A := fun s => Raise e s.
Definition bind {S A B} (c : M S A) (k : A -> M S B) : M S B :=
  fun s => match c s with
           | Ok a s' => k a s'
           | Raise e s' => Raise e s'
           end.
Definition get {S} : M S S := fun s => Ok s s.
Definition gets {S A} (f : S -> A) : M S A := fun s => Ok (f s) s.
Definition modify {S} (f : S -> S) : M S unit := fun s => Ok tt (f s).

(** [try: c except <sel>: h e] *)
Definition try_except {S A} (c : M S A) (sel : exn -> bool) (h : exn -> M S A)
  : M S A :=
  fun s => match c s with
           | Ok a s' => Ok a s'
           | Raise e s' => if sel e then h e s' else Raise e s'
           end.

(** [try: c finally: f] *)
Definition try_finally {S A} (c : M S A) (f : M S unit) : M S A :=
  fun s => match c s with
           | Ok a s' => match f s' with
                        | Ok _ s'' => Ok a s''
                        | Raise e s'' => Raise e s''
                        end
           | Raise e s' => match f s' with
                           | Ok _ s'' => Raise e s''
                           | Raise e' s'' => Raise e' s''
                           end
           end.

(** Run a computation on a component of the state ([self._async.close()]). *)
Definition zoom {S T A} (proj : S -> T) (inj : T -> S -> S) (c : M T A)
  : M S A :=
  fun s => match c (proj s) with
           | Ok a t => Ok a (inj t s)
           | Raise e t => Raise e (inj t s)
           end.

Notation "x <- c ;; k" := (bind c (fun x => k))
  (at level 100, c at next level, right associativity).
Notation "c ;;; k" := (bind c (fun _ => k))
  (at level 100, right associativity).

Definition final_state {S A} (o : outcome S A) : S :=
  match o with Ok _ s => s | Raise _ s => s end.

Definition is_ok {S A} (o : outcome S A) : bool :=
  match o with Ok _ _ => true | Raise _ _ => false end.

(** ** Python values that cross the FFI boundary *)

Definition ptr := nat.   (* address of a cdata handle struct *)
Definition cb := nat.    (* identity of a Python callable *)
Bind Scope nat_scope with ptr cb.

Inductive pyval : Type :=
| PNone
| PInt (z : Z)
| PStr (s : string)
| PCData (p : ptr)          (* a cffi pointer *)
| PCallback (c : cb)
| PWatcher (id : nat).      (* an instance of class [watcher] *)

#[global] Instance pyval_eq_dec : EqDecision pyval.
Proof. solve_decision. Defined.

(** [isinstance(v, watcher)] *)
Definition isinstance_watcher (v : pyval) : bool :=
  match v with PWatcher _ => true | _ => false end.

(** ** The native layer

    libuv is not part of the repository; what the watchers rely on is
    modelled here: handle memory, the loop clock, a log of the calls made,
    and the documented effect of each primitive.  [ffi.new] returns zeroed
    memory, so an address that was never written reads as [zeroed]. *)

Inductive uv_fn : Type :=
| F_poll_init | F_poll_init_socket | F_poll_start | F_poll_stop
| F_timer_init | F_timer_start | F_timer_stop | F_timer_again
| F_async_init | F_async_send
| F_close | F_ref | F_unref.

#[global] Instance uv_fn_eq_dec : EqDecision uv_fn.
Proof. solve_decision. Defined.

Record uv_handle : Type := UvHandle {
  h_type : Z;            (* uv_handle_t.type, 0 = UV_UNKNOWN_HANDLE *)
  h_closing : bool;      (* uv_is_closing *)
  h_active : bool;       (* uv_is_active *)
  h_has_ref : bool;      (* uv_has_ref *)
  h_data : option nat;   (* uv_handle_t.data, None = NULL *)
  h_events : Z;          (* poll: the mask given to uv_poll_start *)
  h_due : Z;             (* timer: absolute loop time of expiry, ms *)
  h_repeat : Z;          (* timer: repeat interval, ms *)
  h_async_cb : bool      (* async: async_cb is non-NULL *)
}.

Definition zeroed : uv_handle :=
  UvHandle 0 false false false None 0 0 0 false.

(** What the environment decides: the status each fallible native entry
    point returns, libuv's error strings, and the interpreter's [repr]. *)
Record platform : Type := Platform {
  uv_rc : uv_fn -> list pyval -> Z;
  uv_err_name : Z -> string;
  uv_strerror : Z -> string;
  repr : pyval -> string
}.

Record world : Type := World {
  sys : platform;
  uv_mem : gmap ptr uv_handle;
  uv_now : Z;                           (* loop time, ms *)
  uv_calls : list (uv_fn * list pyval); (* native calls, oldest first *)
  uv_aborted : bool;                    (* libuv terminated the process *)
  _closing_handles : gset ptr;          (* module global *)
  warnings : list string;               (* warnings.warn log *)
  next_ptr : ptr                        (* allocator for ffi.new *)
}.

Definition mem (p : ptr) (w : world) : uv_handle :=
  default zeroed (uv_mem w !! p).

Definition set_mem (p : ptr) (f : uv_handle -> uv_handle) (w : world) : world :=
  World (sys w) (<[p := f (mem p w)]> (uv_mem w)) (uv_now w) (uv_calls w)
        (uv_aborted w) (_closing_handles w) (warnings w) (next_ptr w).

Definition log_call (fn : uv_fn) (args : list pyval) (w : world) : world :=
  World (sys w) (uv_mem w) (uv_now w) (uv_calls w ++ [(fn, args)])
        (uv_aborted w) (_closing_handles w) (warnings w) (next_ptr w).

Definition set_aborted (b : bool) (w : world) : world :=
  World (sys w) (uv_mem w) (uv_now w) (uv_calls w) b
        (_closing_handles w) (warnings w) (next_ptr w).

Definition set_closing_handles (c : gset ptr) (w : world) : world :=
  World (sys w) (uv_mem w) (uv_now w) (uv_calls w) (uv_aborted w)
        c (warnings w) (next_ptr w).

Definition warn (msg : string) (w : world) : world :=
  World (sys w) (uv_mem w) (uv_now w) (uv_calls w) (uv_aborted w)
        (_closing_handles w) (warnings w ++ [msg]) (next_ptr w).

(** [ffi.new(struct)]: fresh zeroed memory. *)
Definition ffi_new (w : world) : ptr * world :=
  (next_ptr w,
   World (sys w) (<[next_ptr w := zeroed]> (uv_mem w)) (uv_now w) (uv_calls w)
         (uv_aborted w) (_closing_handles w) (warnings w) (S (next_ptr w))).

Definition with_type (t : Z) (h : uv_handle) : uv_handle :=
  UvHandle t (h_closing h) (h_active h) (h_has_ref h) (h_data h)
           (h_events h) (h_due h) (h_repeat h) (h_async_cb h).
Definition with_closing (b : bool) (h : uv_handle) : uv_handle :=
  UvHandle (h_type h) b (h_active h) (h_has_ref h) (h_data h)
           (h_events h) (h_due h) (h_repeat h) (h_async_cb h).
Definition with_active (b : bool) (h : uv_handle) : uv_handle :=
  UvHandle (h_type h) (h_closing h) b (h_has_ref h) (h_data h)
           (h_events h) (h_due h) (h_repeat h) (h_async_cb h).
Definition with_has_ref (b : bool) (h : uv_handle) : uv_handle :=
  UvHandle (h_type h) (h_closing h) (h_active h) b (h_data h)
           (h_events h) (h_due h) (h_repeat h) (h_async_cb h).
Definition with_data (d : option nat) (h : uv_handle) : uv_handle :=
  UvHandle (h_type h) (h_closing h) (h_active h) (h_has_ref h) d
           (h_events h) (h_due h) (h_repeat h) (h_async_cb h).
Definition with_events (e : Z) (h : uv_handle) : uv_handle :=
  UvHandle (h_type h) (h_closing h) (h_active h) (h_has_ref h) (h_data h)
           e (h_due h) (h_repeat h) (h_async_cb h).
Definition with_timer (due rep : Z) (h : uv_handle) : uv_handle :=
  UvHandle (h_type h) (h_closing h) (h_active h) (h_has_ref h) (h_data h)
           (h_events h) due rep (h_async_cb h).
Definition with_async_cb (b : bool) (h : uv_handle) : uv_handle :=
  UvHandle (h_type h) (h_closing h) (h_active h) (h_has_ref h) (h_data h)
           (h_events h) (h_due h) (h_repeat h) b.

(** Handle type tags (uv_handle_type). *)
Definition UV_ASYNC : Z := 1.
Definition UV_POLL : Z := 8.
Definition UV_TIMER : Z := 13.

(** *** Primitives reached through the raw [libuv] object

    Their results are ignored or are plain queries; none of them raises. *)

Definition uv_is_closing (p : ptr) (w : world) : bool := h_closing (mem p w).
Definition uv_has_ref (p : ptr) (w : world) : bool := h_has_ref (mem p w).

(** [uv_close] queues the handle for closing.  libuv asserts that the handle
    is initialised and not already closing; a failed assertion terminates
    the process. *)
Definition uv_close (p : ptr) (w : world) : world :=
  let ok := negb (h_type (mem p w) =? 0) && negb (h_closing (mem p w)) in
  let w := log_call F_close [PCData p] w in
  if ok
  then set_mem p (fun h => with_active false (with_closing true h)) w
  else set_aborted true w.

Definition uv_ref (p : ptr) (w : world) : world :=
  set_mem p (with_has_ref true) (log_call F_ref [PCData p] w).
Definition uv_unref (p : ptr) (w : world) : world :=
  set_mem p (with_has_ref false) (log_call F_unref [PCData p] w).
Definition uv_async_send (p : ptr) (w : world) : world :=
  log_call F_async_send [PCData p] w.
(** [uv_timer_again] re-arms a repeating timer from the current loop time. *)
Definition uv_timer_again (p : ptr) (w : world) : world :=
  let w := log_call F_timer_again [PCData p] w in
  if 0 <? h_repeat (mem p w)
  then set_mem p (fun h => with_active true
                            (with_timer (uv_now w + h_repeat h) (h_repeat h) h)) w
  else w.

(** The loop acknowledges a close: [_uv_close_callback(handle)]. *)
Definition _uv_close_callback (handle : ptr) : M world unit :=
  fun w =>
    if bool_decide (handle ∈ _closing_handles w)
    then Ok tt (set_closing_handles (_closing_handles w ∖ {[handle]}) w)
    else Raise KeyError w.

(** A timer fires in the loop iteration whose clock has reached its expiry. *)
Definition timer_fires (p : ptr) (now : Z) (w : world) : bool :=
  h_active (mem p w) && (h_due (mem p w) <=? now).

(** The mask the poll handle is currently armed with, if it is polling. *)
Definition armed_mask (p : ptr) (w : world) : option Z :=
  if h_active (mem p w) then Some (h_events (mem p w)) else None.

Definition count_calls (fn : uv_fn) (p : ptr) (w : world) : nat :=
  length (List.filter (fun c => bool_decide (c = (fn, [PCData p])))
                      (uv_calls w)).

(** *** Fallible entry points

    [init], [start] and [stop] return an int status, negative on failure;
    the status is the platform's to decide.  A failed call leaves the
    handle as it was. *)

Definition fallible (fn : uv_fn) (args : list pyval) (effect : world -> world)
  : M world (option Z) :=
  fun w =>
    let rc := uv_rc (sys w) fn args in
    let w' := log_call fn args w in
    Ok (Some rc) (if rc <? 0 then w' else effect w').

Definition init_handle (t : Z) (act : bool) (h : uv_handle) : uv_handle :=
  with_active act (with_has_ref true (with_closing false (with_type t h))).

(** cffi converts a Python int to [uint64_t], or raises. *)
Definition fits_uint64 (z : Z) : bool := (0 <=? z) && (z <? 2 ^ 64).

(** [getattr(libuv, name)] applied to the call's arguments: cffi functions take positional
    arguments of the declared types only.  [uv_poll_start] is given the
    effect it has for a mask that is not empty; for an empty mask libuv
    stops the handle instead. *)
Definition libuv (fn : uv_fn) (args : list pyval) (kwargs : list (string * pyval))
  : M world (option Z) :=
  match kwargs with
  | _ :: _ => raise TypeError
  | [] =>
    match fn, args with
    | F_poll_init, [PCData _; PCData h; PInt _]
    | F_poll_init_socket, [PCData _; PCData h; PInt _] =>
        fallible fn args (set_mem h (init_handle UV_POLL false))
    | F_poll_start, [PCData h; PInt events; PCallback _] =>
        fallible fn args
          (set_mem h (fun x => with_active true (with_events events x)))
    | F_poll_stop, [PCData h] =>
        fallible fn args (set_mem h (with_active false))
    | F_timer_init, [PCData _; PCData h] =>
        fallible fn args (set_mem h (init_handle UV_TIMER false))
    | F_timer_start, [PCData h; PCallback _; PInt timeout; PInt rep] =>
        if fits_uint64 timeout && fits_uint64 rep
        then fallible fn args
               (fun w => set_mem h (fun x => with_active true
                                      (with_timer (uv_now w + timeout) rep x)) w)
        else raise OverflowError
    | F_timer_stop, [PCData h] =>
        fallible fn args (set_mem h (with_active false))
    | F_async_init, [PCData _; PCData h; _] =>
        fallible fn args (set_mem h (init_handle UV_ASYNC true))
    | F_timer_again, [PCData h] => fun w => Ok (Some 0) (uv_timer_again h w)
    | F_async_send, [PCData h] => fun w => Ok (Some 0) (uv_async_send h w)
    | F_close, [PCData h; _] => fun w => Ok None (uv_close h w)
    | F_ref, [PCData h] => fun w => Ok None (uv_ref h w)
    | F_unref, [PCData h] => fun w => Ok None (uv_unref h w)
    | _, _ => raise TypeError
    end
  end.

(** ** class libuv_error_wrapper *)

Definition repr_tuple (r : pyval -> string) (args : list pyval) : string :=
  match args with
  | [] => "()"
  | [a] => "(" ++ r a ++ ",)"
  | _ => "(" ++ String.concat ", " (map r args) ++ ")"
  end%string.

Definition repr_dict (r : pyval -> string) (kwargs : list (string * pyval))
  : string :=
  ("{" ++ String.concat ", "
            (map (fun kv => "'" ++ fst kv ++ "': " ++ r (snd kv)) kwargs)
       ++ "}")%string.

(** The text given to [UVFuncallError] for status [res]. *)
Definition funcall_error_message (p : platform) (res : Z) (args : list pyval)
    (kwargs : list (string * pyval)) : string :=
  ((uv_err_name p res ++ " " ++ uv_strerror p res)
     ++ " Args: " ++ repr_tuple (repr p) args
     ++ " KWARGS: " ++ repr_dict (repr p) kwargs)%string.

(** [if args and isinstance(args[0], watcher): args = args[1:]]: a leading
    watcher instance, bound when the wrapper is reached through a class
    attribute, is dropped. *)
Definition native_args (args : list pyval) : list pyval :=
  match args with
  | a :: rest => if isinstance_watcher a then rest else args
  | [] => args
  end.

(** The closure [wrap] that [__getattr__] builds around [libuv_func]. *)
Definition wrap
    (libuv_func : list pyval -> list (string * pyval) -> M world (option Z))
    (args : list pyval) (kwargs : list (string * pyval)) : M world (option Z) :=
  let args := native_args args in
  res <- libuv_func args kwargs ;;
  match res with
  | Some r =>
      if r <? 0
      then (w <- get ;;
            raise (UVFuncallError (funcall_error_message (sys w) r args kwargs)))
      else ret res
  | None => ret res
  end.

(** [watcher._LIB = libuv_error_wrapper(libuv)]; [_LIB.name] is the wrapped
    function. *)
Definition _LIB (name : uv_fn) (args : list pyval) : M world (option Z) :=
  wrap (libuv name) args [].

Definition contains (part whole : string) : Prop :=
  exists pre post : string, whole = (pre ++ part ++ post)%string.

(** ** Watcher objects

    Every watcher instance carries the attributes of the base class, the
    attributes its own class adds ([ext]) and the world it runs in. *)

Inductive lifecycle : Type := Uninitialized | Stopped | Active | Closed.

#[global] Instance lifecycle_eq_dec : EqDecision lifecycle.
Proof. solve_decision. Defined.

Record base_fields : Type := BaseFields {
  self_id : nat;                 (* identity of the instance *)
  loop_ptr : ptr;                (* self.loop.ptr *)
  _watcher : option ptr;         (* the cdata handle, or None *)
  _handle : option nat;          (* handle passed to the C callback *)
  callback : option cb;
  args : option (list pyval);
  lifecycle_state : lifecycle;
  init_ref : bool                (* the constructor's [ref] argument *)
}.

Record obj (X : Type) : Type := Obj {
  bw : base_fields;
  ext : X;
  env : world
}.
Arguments Obj {X} bw ext env.
Arguments bw {X} o.
Arguments ext {X} o.
Arguments env {X} o.

Definition set_bw {X} (b : base_fields) (s : obj X) : obj X := Obj b (ext s) (env s).
Definition set_ext {X} (x : X) (s : obj X) : obj X := Obj (bw s) x (env s).
Definition set_env {X} (w : world) (s : obj X) : obj X := Obj (bw s) (ext s) w.

Definition with_watcher (p : option ptr) (b : base_fields) : base_fields :=
  BaseFields (self_id b) (loop_ptr b) p (_handle b) (callback b) (args b)
             (lifecycle_state b) (init_ref b).
Definition with_handle (h : option nat) (b : base_fields) : base_fields :=
  BaseFields (self_id b) (loop_ptr b) (_watcher b) h (callback b) (args b)
             (lifecycle_state b) (init_ref b).
Definition with_callback (c : option cb) (a : option (list pyval))
    (b : base_fields) : base_fields :=
  BaseFields (self_id b) (loop_ptr b) (_watcher b) (_handle b) c a
             (lifecycle_state b) (init_ref b).
Definition with_lifecycle (l : lifecycle) (b : base_fields) : base_fields :=
  BaseFields (self_id b) (loop_ptr b) (_watcher b) (_handle b) (callback b)
             (args b) l (init_ref b).

(** A native call made from a method of the instance. *)
Definition in_env {X A} (c : M world A) : M (obj X) A := zoom env set_env c.

(** [self._watcher] as an argument of a cffi call. *)
Definition watcher_arg (b : base_fields) : pyval :=
  match _watcher b with Some p => PCData p | None => PNone end.

(** [self._watcher_callback], the C trampoline the metaclass looks up. *)
Definition _watcher_callback : pyval := PCallback 0%nat.

(** The methods a watcher class inherits from [gevent._ffi.watcher.watcher],
    which is not among the sources: they are an interface here. *)
Module inherited.
Class Base (X : Type) : Type := {
  start : cb -> list pyval -> list (string * pyval) -> M (obj X) unit;
  stop : M (obj X) unit;
  close : M (obj X) unit;
  active : obj X -> bool
}.
End inherited.
Abbreviation Base := inherited.Base.

(** Modelled from the spec: the decorator [only_if_watcher] of
    gevent._ffi.watcher, which is not among the sources.  "unref on a
    never-initialized watcher is a no-op returning unspecified state rather
    than an error": the decorated method runs only if the instance has a
    handle. *)
Definition only_if_watcher {X} (func : M (obj X) unit) : M (obj X) unit :=
  fun s => match _watcher (bw s) with
           | Some _ => func s
           | None => Ok tt s
           end.

(** Modelled from the spec: the decorator [not_while_active] of
    gevent._ffi.watcher, which is not among the sources.  The decorated
    setter is refused on an active watcher. *)
Definition not_while_active {X} `{Base X} (func : M (obj X) unit)
  : M (obj X) unit :=
  fun s => if inherited.active s
           then Raise (ValueError "not while active") s else func s.

(** ** class watcher *)

Module watcher.
Section Methods.
Context {X : Type}.

(** The names the metaclass binds from [_LIB] for the class's handle
    type: [uv_<type>_init], [uv_<type>_start], [uv_<type>_stop]. *)
Variables (_watcher_init _watcher_start _watcher_stop : uv_fn).

(** The classmethod [_watcher_ffi_close(cls, ffi_watcher)]. *)
Definition _watcher_ffi_close (ffi_watcher : ptr) (w : world) : world :=
  let w1 :=
    if negb (h_type (mem ffi_watcher w) =? 0)
       && negb (uv_is_closing ffi_watcher w)
    then uv_close ffi_watcher
           (set_closing_handles ({[ffi_watcher]} ∪ _closing_handles w) w)
    else w in
  set_mem ffi_watcher (with_data None) w1.

Definition _watcher_ffi_init (args : list pyval) : M (obj X) unit :=
  s <- get ;;
  in_env (_LIB _watcher_init
            (PWatcher (self_id (bw s)) :: PCData (loop_ptr (bw s))
               :: watcher_arg (bw s) :: args)) ;;;
  ret tt.

Definition _watcher_ffi_start : M (obj X) unit :=
  s <- get ;;
  in_env (_LIB _watcher_start
            [PWatcher (self_id (bw s)); watcher_arg (bw s); _watcher_callback]) ;;;
  ret tt.

Definition _watcher_ffi_stop : M (obj X) unit :=
  s <- get ;;
  match _watcher (bw s) with
  | Some p =>
      in_env (_LIB _watcher_stop [PWatcher (self_id (bw s)); PCData p]) ;;;
      ret tt
  | None => ret tt
  end.

(** The body under the decorator reads [self._watcher] again. *)
Definition raw_on_watcher (f : ptr -> world -> world) : M (obj X) unit :=
  fun s => match _watcher (bw s) with
           | Some p => Ok tt (set_env (f p (env s)) s)
           | None => Raise TypeError s
           end.

Definition _watcher_ffi_ref : M (obj X) unit :=
  only_if_watcher (raw_on_watcher uv_ref).

Definition _watcher_ffi_unref : M (obj X) unit :=
  only_if_watcher (raw_on_watcher uv_unref).

Definition _watcher_ffi_start_unref : M (obj X) unit := ret tt.
Definition _watcher_ffi_stop_ref : M (obj X) unit := ret tt.

(** The [ref] property: [None], [True] or [False]. *)
Definition _get_ref (s : obj X) : option bool :=
  match _watcher (bw s) with
  | None => None
  | Some p => Some (if uv_has_ref p (env s) then true else false)
  end.

Definition _set_ref (value : bool) : M (obj X) unit :=
  if value then _watcher_ffi_ref else _watcher_ffi_unref.

Definition _watcher_ffi_set_init_ref (ref : bool) : M (obj X) unit :=
  _set_ref ref.

Definition feed : M (obj X) unit := raise (Exception_ "Not implemented").
End Methods.
End watcher.

(** ** The base class, from the spec

    A concrete [Base], used where a claim needs the inherited methods to do
    something definite.  The hooks are the methods a watcher class in this
    module overrides. *)

Record hooks (X : Type) : Type := Hooks {
  hook_init : M (obj X) unit;                 (* _watcher_ffi_init(args) *)
  hook_set_init_ref : bool -> M (obj X) unit; (* _watcher_ffi_set_init_ref *)
  hook_start : M (obj X) unit;                (* _watcher_ffi_start *)
  hook_stop : M (obj X) unit                  (* _watcher_ffi_stop *)
}.
Arguments hook_init {X} h.
Arguments hook_set_init_ref {X} h.
Arguments hook_start {X} h.
Arguments hook_stop {X} h.

Module spec_base.
Section Methods.
Context {X : Type} (H : hooks X).

Definition set_lifecycle (l : lifecycle) : M (obj X) unit :=
  modify (fun s => set_bw (with_lifecycle l (bw s)) s).

(** Modelled from the spec: [HandleLifecycle.allocate] and [initialize],
    done by the base class, which is not among the sources.  "reserves
    backing memory/slot for a native handle"; "calls the native init
    primitive; fails ... if the loop rejects the kind/arguments", and
    then "watcher remains uninitialized". *)
Definition allocate_and_initialize : M (obj X) unit :=
  modify (fun s => let pw := ffi_new (env s) in
                   set_env (snd pw) (set_bw (with_watcher (Some (fst pw)) (bw s)) s)) ;;;
  try_except (hook_init H) (fun _ => true)
    (fun e => modify (fun s => set_bw (with_watcher None (bw s)) s) ;;;
              raise e) ;;;
  s <- get ;;
  hook_set_init_ref H (init_ref (bw s)) ;;;
  set_lifecycle Stopped.

(** Modelled from the spec: [start] of the base class, which is not among
    the sources.  "requires state in {stopped, uninitialized}.  On first
    start, lazily allocates+initializes the native handle.  Arms the
    native handle with a generic trampoline callback bound to self;
    stores callback/args; transitions to active."  Starting an active
    watcher arms it again: a watcher class may re-start while active. *)
Definition start (callback : cb) (args : list pyval)
    (kw : list (string * pyval)) : M (obj X) unit :=
  s <- get ;;
  match lifecycle_state (bw s) with
  | Closed => raise UseAfterCloseError
  | Uninitialized => allocate_and_initialize
  | Stopped | Active => ret tt
  end ;;;
  modify (fun s => set_bw (with_handle (Some (self_id (bw s))) (bw s)) s) ;;;
  hook_start H ;;;
  modify (fun s => set_bw (with_callback (Some callback) (Some args) (bw s)) s) ;;;
  set_lifecycle Active.

(** Modelled from the spec: [stop] of the base class.  "requires state ==
    active (no-op otherwise).  Calls the native stop primitive; clears
    callback/args; transitions to stopped.  Does not release the native
    handle." *)
Definition stop : M (obj X) unit :=
  s <- get ;;
  match lifecycle_state (bw s) with
  | Active =>
      hook_stop H ;;;
      modify (fun s => set_bw (with_callback None None (bw s)) s) ;;;
      set_lifecycle Stopped
  | _ => ret tt
  end.

(** Modelled from the spec: [close] of the base class.  "calls stop() if
    active, then HandleLifecycle.requestClose; transitions to closed.
    Safe to call multiple times."  [requestClose] is the classmethod
    [_watcher_ffi_close] of the sources. *)
Definition close : M (obj X) unit :=
  s <- get ;;
  match lifecycle_state (bw s) with
  | Closed => ret tt
  | _ =>
      stop ;;;
      s <- get ;;
      match _watcher (bw s) with
      | Some p => modify (fun s => set_env (watcher._watcher_ffi_close p (env s)) s)
      | None => ret tt
      end ;;;
      set_lifecycle Closed
  end.

(** Modelled from the spec: the readable property [active]: the state is
    active. *)
Definition active (s : obj X) : bool :=
  bool_decide (lifecycle_state (bw s) = Active).

Definition base : Base X :=
  inherited.Build_Base X start stop close active.
End Methods.
End spec_base.

(** ** class timer *)

(** [bool(x)] for a float: anything but zero, NaN included. *)
Definition float_truth (x : float) : bool := negb (x =? 0)%float.

(** [int(x)] for a float: truncation towards zero. *)
Definition int_of_float (x : float) : exn + Z :=
  match Prim2SF x with
  | S754_zero _ => inr 0
  | S754_nan => inl (ValueError "cannot convert float NaN to integer")
  | S754_infinity _ => inl OverflowError
  | S754_finite sgn m e =>
      let mag := Z.shiftl (Z.pos m) e in
      inr (if sgn then - mag else mag)
  end.

Definition int_ {S} (x : float) : M S Z :=
  match int_of_float x with
  | inl e => raise e
  | inr z => ret z
  end.

(** The literal [0.001], as binary64 rounds it. *)
Definition one_ms : float := 0x1.0624dd2f1a9fcp-10%float.

(** [x and x < 0.001] *)
Definition below_resolution (x : float) : bool :=
  float_truth x && (x <? one_ms)%float.

Definition resolution_warning : string :=
  "libuv only supports millisecond timer resolution; all times less will be set to 1 ms".

Record timer_ext : Type := TimerExt {
  _after : float;
  _repeat : float;
  _again : bool      (* class attribute False unless set on the instance *)
}.

Module timer.
Definition set_after (x : float) (s : obj timer_ext) : obj timer_ext :=
  set_ext (TimerExt x (_repeat (ext s)) (_again (ext s))) s.
Definition set_repeat (x : float) (s : obj timer_ext) : obj timer_ext :=
  set_ext (TimerExt (_after (ext s)) x (_again (ext s))) s.
Definition set_again (b : bool) (s : obj timer_ext) : obj timer_ext :=
  set_ext (TimerExt (_after (ext s)) (_repeat (ext s)) b) s.

Definition warnings_warn (msg : string) : M (obj timer_ext) unit :=
  modify (fun s => set_env (warn msg (env s)) s).

Definition _watcher_ffi_init (args : float * float) : M (obj timer_ext) unit :=
  s <- get ;;
  in_env (_LIB F_timer_init
            [PWatcher (self_id (bw s)); PCData (loop_ptr (bw s));
             watcher_arg (bw s)]) ;;;
  modify (set_after (fst args)) ;;;
  modify (set_repeat (snd args)) ;;;
  s <- get ;;
  (if below_resolution (_after (ext s))
   then warnings_warn resolution_warning ;;; modify (set_after one_ms)
   else ret tt) ;;;
  s <- get ;;
  (if below_resolution (_repeat (ext s))
   then warnings_warn resolution_warning ;;; modify (set_repeat one_ms)
   else ret tt).

Definition _watcher_ffi_start : M (obj timer_ext) unit :=
  s <- get ;;
  if _again (ext s)
  then match _watcher (bw s) with
       | Some p => modify (fun s => set_env (uv_timer_again p (env s)) s)
       | None => raise TypeError
       end
  else try_except
         (after_ms <- int_ (_after (ext s) * 1000)%float ;;
          repeat_ms <- int_ (_repeat (ext s) * 1000)%float ;;
          in_env (_LIB F_timer_start
                    [PWatcher (self_id (bw s)); watcher_arg (bw s);
                     _watcher_callback; PInt after_ms; PInt repeat_ms]) ;;;
          ret tt)
         is_ValueError
         (fun _ => raise TypeError).

Section Inherited.
Context `{B : Base timer_ext}.

Definition again (callback : cb) (args : list pyval)
    (kw : list (string * pyval)) : M (obj timer_ext) unit :=
  s <- get ;;
  if negb (inherited.active s)
  then inherited.start callback args kw
  else modify (set_again true) ;;;
       try_finally (inherited.start callback args kw)
                   (modify (set_again false)).
End Inherited.

Definition timer_hooks (init_args : float * float) : hooks timer_ext :=
  Hooks timer_ext (_watcher_ffi_init init_args)
        (watcher._watcher_ffi_set_init_ref)
        _watcher_ffi_start
        (watcher._watcher_ffi_stop F_timer_stop).
End timer.

(** ** class async_ *)

Module async_.
Definition _watcher_ffi_init : M (obj unit) unit :=
  s <- get ;;
  in_env (_LIB F_async_init
            [PWatcher (self_id (bw s)); PCData (loop_ptr (bw s));
             watcher_arg (bw s); PNone]) ;;;
  ret tt.

(** [self._watcher.async_cb = value] *)
Definition set_async_cb (b : bool) : M (obj unit) unit :=
  fun s => match _watcher (bw s) with
           | Some p => Ok tt (set_env (set_mem p (with_async_cb b) (env s)) s)
           | None => Raise AttributeError s
           end.

Definition _watcher_ffi_start : M (obj unit) unit := set_async_cb true.

Definition _watcher_ffi_stop : M (obj unit) unit :=
  set_async_cb false ;;;
  watcher._watcher_ffi_unref.

Definition send : M (obj unit) unit :=
  fun s => match _watcher (bw s) with
           | None => Raise TypeError s
           | Some p =>
               if uv_is_closing p (env s)
               then Raise (Exception_ "Closing handle") s
               else Ok tt (set_env (uv_async_send p (env s)) s)
           end.

Definition pending (s : obj unit) : option bool := None.

Definition async_hooks : hooks unit :=
  Hooks unit _watcher_ffi_init watcher._watcher_ffi_set_init_ref
        _watcher_ffi_start _watcher_ffi_stop.
End async_.

(** ** class io and its nested class _multiplexwatcher *)

Definition UV_READABLE : Z := 1.
Definition UV_WRITABLE : Z := 2.
Definition UV_DISCONNECT : Z := 4.

(** Truthiness of a Python value. *)
Definition truth (v : pyval) : bool :=
  match v with
  | PNone => false
  | PInt z => negb (z =? 0)
  | PStr s => negb (String.eqb s "")
  | _ => true
  end.

(** [kwargs.get(key)] *)
Fixpoint kwargs_get (key : string) (kw : list (string * pyval)) : pyval :=
  match kw with
  | [] => PNone
  | (k, v) :: kw' => if String.eqb k key then v else kwargs_get key kw'
  end.

Record multiplexwatcher : Type := MW {
  mw_events : Z;                   (* _events *)
  mw_callback : option cb;         (* callback *)
  mw_args : option (list pyval);   (* args *)
  pass_events : bool;              (* truthiness of pass_events *)
  _watcher_ref : option nat        (* the owning io instance, or None *)
}.

(** A sub-watcher as its class attributes leave it. *)
Definition mw_default : multiplexwatcher := MW 0 None (Some []) false None.

Record io_ext : Type := IoExt {
  _fd : Z;
  _events : Z;
  _multiplex_watchers : option (list nat);
      (* the instance's list of sub-watchers; None once the attribute is
         deleted and the class attribute () shows through *)
  objects : gmap nat multiplexwatcher;   (* the sub-watcher instances *)
  next_id : nat;
  invoked : list (cb * list pyval);      (* callbacks called, oldest first *)
  detached : list nat
      (* the list object the attribute held when it was deleted: a loop
         that was already iterating over it goes on doing so *)
}.

(** [list.remove(x)]: drops the first occurrence, or fails. *)
Fixpoint list_remove (x : nat) (l : list nat) : option (list nat) :=
  match l with
  | [] => None
  | y :: l' => if decide (x = y) then Some l'
               else option_map (cons y) (list_remove x l')
  end.

Module io.
Definition EVENT_MASK : Z :=
  Z.lor (Z.lor UV_READABLE UV_WRITABLE) UV_DISCONNECT.

(** The bound method [self._io_callback] as a callable. *)
Definition io_callback_id : cb := 0%nat.

Definition set_fd (fd : Z) (s : obj io_ext) : obj io_ext :=
  set_ext (IoExt fd (_events (ext s)) (_multiplex_watchers (ext s))
                 (objects (ext s)) (next_id (ext s)) (invoked (ext s))
                 (detached (ext s))) s.
Definition set_events (e : Z) (s : obj io_ext) : obj io_ext :=
  set_ext (IoExt (_fd (ext s)) e (_multiplex_watchers (ext s))
                 (objects (ext s)) (next_id (ext s)) (invoked (ext s))
                 (detached (ext s))) s.
(** [self._multiplex_watchers = l], and with [None]
    [del self._multiplex_watchers]: the instance attribute goes, the list
    object it held stays as it is. *)
Definition set_multiplex_watchers (l : option (list nat)) (s : obj io_ext)
  : obj io_ext :=
  set_ext (IoExt (_fd (ext s)) (_events (ext s)) l
                 (objects (ext s)) (next_id (ext s)) (invoked (ext s))
                 (match l with
                  | Some _ => detached (ext s)
                  | None => default (detached (ext s))
                                    (_multiplex_watchers (ext s))
                  end)) s.
Definition set_object (id : nat) (o : multiplexwatcher) (s : obj io_ext)
  : obj io_ext :=
  set_ext (IoExt (_fd (ext s)) (_events (ext s)) (_multiplex_watchers (ext s))
                 (<[id := o]> (objects (ext s))) (next_id (ext s))
                 (invoked (ext s)) (detached (ext s))) s.
Definition new_object (o : multiplexwatcher) (s : obj io_ext) : obj io_ext :=
  set_ext (IoExt (_fd (ext s)) (_events (ext s)) (_multiplex_watchers (ext s))
                 (<[next_id (ext s) := o]> (objects (ext s)))
                 (S (next_id (ext s))) (invoked (ext s)) (detached (ext s))) s.
(** A call of callback [c] with arguments [a] is put on record. *)
Definition record (c : cb) (a : list pyval) (s : obj io_ext) : obj io_ext :=
  set_ext (IoExt (_fd (ext s)) (_events (ext s)) (_multiplex_watchers (ext s))
                 (objects (ext s)) (next_id (ext s))
                 (invoked (ext s) ++ [(c, a)]) (detached (ext s))) s.

(** The sub-watcher instance behind a reference. *)
Definition deref (id : nat) (s : obj io_ext) : multiplexwatcher :=
  default mw_default (objects (ext s) !! id).

(** What [self._multiplex_watchers] reads as. *)
Definition watchers (s : obj io_ext) : list nat :=
  default [] (_multiplex_watchers (ext s)).

Definition _get_fd (s : obj io_ext) : Z := _fd (ext s).
Definition _get_events (s : obj io_ext) : Z := _events (ext s).

Definition _watcher_ffi_start : M (obj io_ext) unit :=
  s <- get ;;
  in_env (_LIB F_poll_start
            [PWatcher (self_id (bw s)); watcher_arg (bw s);
             PInt (_events (ext s)); _watcher_callback]) ;;;
  ret tt.

Definition io_hooks : hooks io_ext :=
  Hooks io_ext
    (s <- get ;; watcher._watcher_ffi_init F_poll_init [PInt (_fd (ext s))])
    watcher._watcher_ffi_set_init_ref
    _watcher_ffi_start
    (watcher._watcher_ffi_stop F_poll_stop).

Section Inherited.
Context `{B : Base io_ext}.

Definition _set_fd (fd : Z) : M (obj io_ext) unit :=
  not_while_active
    (modify (set_fd fd) ;;;
     watcher._watcher_ffi_init F_poll_init [PInt fd]).

Definition _set_events (events : Z) : M (obj io_ext) unit :=
  s <- get ;;
  if events =? _events (ext s) then ret tt
  else
    modify (set_events events) ;;;
    s <- get ;;
    if inherited.active s
    then match _handle (bw s) with
         | None => raise AssertionError
         | Some _ =>
             in_env (_LIB F_poll_start
                       [PWatcher (self_id (bw s)); watcher_arg (bw s);
                        PInt (_events (ext s)); _watcher_callback]) ;;;
             ret tt
         end
    else ret tt.

Definition _io_maybe_stop : M (obj io_ext) unit :=
  s <- get ;;
  if existsb (fun id => bool_decide (mw_callback (deref id s) <> None))
             (watchers s)
  then ret tt
  else inherited.stop.

Definition _io_start : M (obj io_ext) unit :=
  inherited.start io_callback_id [] [("pass_events", PInt 1)].

Definition _calc_and_update_events : M (obj io_ext) unit :=
  s <- get ;;
  _set_events
    (fold_left (fun events id => Z.lor events (mw_events (deref id s)))
               (watchers s) 0).

Definition multiplex (events : Z) : M (obj io_ext) nat :=
  s <- get ;;
  let id := next_id (ext s) in
  modify (new_object (MW events None (Some []) false (Some (self_id (bw s))))) ;;;
  match _multiplex_watchers (ext s) with
  | Some l => modify (set_multiplex_watchers (Some (l ++ [id])))
  | None => raise AttributeError
  end ;;;
  _calc_and_update_events ;;;
  ret id.

(** [io.close]: the inherited close, then
    [del self._multiplex_watchers]. *)
Definition close : M (obj io_ext) unit :=
  inherited.close ;;;
  s <- get ;;
  match _multiplex_watchers (ext s) with
  | Some _ => modify (set_multiplex_watchers None)
  | None => raise AttributeError
  end.

Definition _no_more_watchers : M (obj io_ext) unit := ret tt.

Definition _multiplex_closed (watcher : nat) : M (obj io_ext) unit :=
  s <- get ;;
  match _multiplex_watchers (ext s) with
  | None => raise AttributeError
  | Some l =>
      match list_remove watcher l with
      | None => raise (ValueError "list.remove(x): x not in list")
      | Some l' =>
          modify (set_multiplex_watchers (Some l')) ;;;
          match l' with
          | [] => inherited.stop ;;; _no_more_watchers ;;; close
          | _ :: _ => _calc_and_update_events
          end
      end
  end.

End Inherited.

(** *** The dispatch

    [watcher.callback(...)] runs user code: it may raise, and it may call
    [stop()], [close()], [start()] or [multiplex()] on this io watcher and
    its sub-watchers while the dispatch is still walking the list.  What a
    callback does is a parameter; the call is put on record before the
    callback runs. *)
Section Dispatch.
Variable run : cb -> list pyval -> M (obj io_ext) unit.

Definition call (c : cb) (a : list pyval) : M (obj io_ext) unit :=
  modify (record c a) ;;; run c a.

(** The list object a [for] statement that began while the attribute was
    set is iterating over: the attribute's list, and after a
    [del self._multiplex_watchers] the same object, no longer reachable
    through the attribute. *)
Definition iterated (s : obj io_ext) : list nat :=
  match _multiplex_watchers (ext s) with
  | Some l => l
  | None => detached (ext s)
  end.

(** The body of the [for] statement, for the sub-watcher [watcher]. *)
Definition visit (events : Z) (watcher : nat) : M (obj io_ext) unit :=
  s <- get ;;
  let w := deref watcher s in
  match mw_callback w with
  | None => ret tt
  | Some c =>
      (if bool_decide (_watcher_ref w = Some (self_id (bw s)))
       then ret tt else raise AssertionError) ;;;
      if negb (Z.land events (mw_events w) =? 0) || (events <? 0)
      then match mw_args w with
           | None => raise TypeError
           | Some a =>
               if negb (pass_events w)
               then call c a
               else call c (PInt events :: a)
           end
      else ret tt
  end.

(** The [for] statement from the iterator's position [i] on.  The iterator
    looks at the list as it is when the next element is asked for, so
    what a callback removes or appends is seen by the steps after it.  A
    list that keeps growing keeps the loop going: [None] is a loop that has
    not ended within [fuel] steps. *)
Fixpoint deliver (fuel : nat) (events : Z) (i : nat) (s : obj io_ext)
  : option (outcome (obj io_ext) unit) :=
  match fuel with
  | O => None
  | S fuel' =>
      match iterated s !! i with
      | None => Some (Ok tt s)
      | Some watcher =>
          match visit events watcher s with
          | Ok _ s' => deliver fuel' events (S i) s'
          | Raise e s' => Some (Raise e s')
          end
      end
  end.

(** [_io_callback(events)].  With the instance attribute deleted the class
    attribute [()] is iterated, which has no elements. *)
Definition _io_callback (fuel : nat) (events : Z) (s : obj io_ext)
  : option (outcome (obj io_ext) unit) :=
  match _multiplex_watchers (ext s) with
  | None => Some (Ok tt s)
  | Some _ => deliver fuel events 0 s
  end.
End Dispatch.

Module _multiplexwatcher.
Section Inherited.
Context `{B : Base io_ext}.

Definition events (self : nat) (s : obj io_ext) : Z :=
  mw_events (deref self s).

Definition active (self : nat) (s : obj io_ext) : bool :=
  bool_decide (mw_callback (deref self s) <> None).

(** The setter of [events], under [not_while_active]: refused while the
    sub-watcher itself is started. *)
Definition set_events (self : nat) (nv : Z) : M (obj io_ext) unit :=
  fun s =>
    if active self s then Raise (ValueError "not while active") s
    else let w := deref self s in
         Ok tt (set_object self
                  (MW nv (mw_callback w) (mw_args w) (pass_events w)
                      (_watcher_ref w)) s).

Definition fd (self : nat) (s : obj io_ext) : Z :=
  match _watcher_ref (deref self s) with
  | Some _ => _fd (ext s)
  | None => -1
  end.

(** A call on [self._watcher_ref]: this state holds one io instance,
    and a reference to any other one cannot be followed in it. *)
Definition on_owner (self : nat) (c : M (obj io_ext) unit)
  : M (obj io_ext) unit :=
  s <- get ;;
  match _watcher_ref (deref self s) with
  | None => ret tt
  | Some o =>
      if bool_decide (o = self_id (bw s)) then c
      else raise (Exception_ "owner outside this state")
  end.

Definition start (self : nat) (callback : cb) (args : list pyval)
    (kwargs : list (string * pyval)) : M (obj io_ext) unit :=
  modify (fun s =>
    let w := deref self s in
    set_object self
      (MW (mw_events w) (Some callback) (Some args)
          (truth (kwargs_get "pass_events" kwargs)) (_watcher_ref w)) s) ;;;
  on_owner self
    (s <- get ;;
     if negb (inherited.active s) then _io_start else ret tt).

Definition stop (self : nat) : M (obj io_ext) unit :=
  modify (fun s =>
    let w := deref self s in
    set_object self
      (MW (mw_events w) None None false (_watcher_ref w)) s) ;;;
  on_owner self _io_maybe_stop.

Definition close (self : nat) : M (obj io_ext) unit :=
  on_owner self (_multiplex_closed self) ;;;
  modify (fun s =>
    let w := deref self s in
    set_object self
      (MW (mw_events w) (mw_callback w) (mw_args w) (pass_events w) None) s).
End Inherited.
End _multiplexwatcher.
End io.

(** ** class _SimulatedWithAsyncMixin, fork and child *)

Record sim_ext : Type := SimExt {
  _async : option base_fields;   (* the owned async watcher *)
  registered : bool;             (* self is in the loop's observer collection *)
  _rpid : option Z;
  _rstatus : option Z
}.

Module _SimulatedWithAsyncMixin.
Definition set_async (a : option base_fields) (s : obj sim_ext) : obj sim_ext :=
  set_ext (SimExt a (registered (ext s)) (_rpid (ext s)) (_rstatus (ext s))) s.
Definition set_registered (b : bool) (s : obj sim_ext) : obj sim_ext :=
  set_ext (SimExt (_async (ext s)) b (_rpid (ext s)) (_rstatus (ext s))) s.
Definition set_waitpid (pid status : Z) (s : obj sim_ext) : obj sim_ext :=
  set_ext (SimExt (_async (ext s)) (registered (ext s)) (Some pid) (Some status)) s.

(** The async watcher shares the world of its owner. *)
Definition put_async (t : obj unit) (s : obj sim_ext) : obj sim_ext :=
  set_env (env t) (set_async (Some (bw t)) s).

(** A method call on [self._async]. *)
Definition on_async {A} (c : M (obj unit) A) : M (obj sim_ext) A :=
  fun s => match _async (ext s) with
           | None => Raise AttributeError s
           | Some a =>
               match c (Obj a tt (env s)) with
               | Ok r t => Ok r (put_async t s)
               | Raise e t => Raise e (put_async t s)
               end
           end.

Section Inherited.
(** The methods the async watcher inherits. *)
Context `{BA : Base unit}.
(** [loop.async_()] and the rest of the method resolution order's
    [__init__], neither among the sources. *)
Variable loop_async_ : M world base_fields.
Variable super_init : M (obj sim_ext) unit.
(** Abstract in the mixin. *)
Variables _register_loop_callback _unregister_loop_callback
  : M (obj sim_ext) unit.

Definition close : M (obj sim_ext) unit :=
  s <- get ;;
  match _async (ext s) with
  | Some _ => on_async inherited.close
  | None => ret tt
  end.

Definition __init__ : M (obj sim_ext) unit :=
  a <- in_env loop_async_ ;;
  modify (set_async (Some a)) ;;;
  try_except super_init (fun _ => true)
    (fun e => on_async inherited.close ;;; raise e).

Definition _watcher_create : M (obj sim_ext) unit := ret tt.
Definition _watcher_handle (s : obj sim_ext) : option nat := None.
Definition _watcher_ffi_init : M (obj sim_ext) unit := ret tt.

Definition _watcher_ffi_set_init_ref (ref : bool) : M (obj sim_ext) unit :=
  on_async (watcher._set_ref ref).

Definition active (s : obj sim_ext) : bool :=
  match _async (ext s) with
  | Some a => inherited.active (Obj a tt (env s))
  | None => false
  end.

Definition start (cb_ : cb) (args : list pyval) : M (obj sim_ext) unit :=
  _register_loop_callback ;;;
  modify (fun s => set_bw (with_callback (Some cb_) (Some args) (bw s)) s) ;;;
  on_async (inherited.start cb_ args []).

Definition stop : M (obj sim_ext) unit :=
  _unregister_loop_callback ;;;
  modify (fun s => set_bw (with_callback None None (bw s)) s) ;;;
  on_async inherited.stop.
End Inherited.

Definition _register_loop_callback : M (obj sim_ext) unit :=
  raise NotImplementedError.
Definition _unregister_loop_callback : M (obj sim_ext) unit :=
  raise NotImplementedError.
End _SimulatedWithAsyncMixin.

Module fork.
Definition _register_loop_callback : M (obj sim_ext) unit :=
  modify (_SimulatedWithAsyncMixin.set_registered true).
Definition _unregister_loop_callback : M (obj sim_ext) unit :=
  modify (_SimulatedWithAsyncMixin.set_registered false).
Definition _on_fork : M (obj sim_ext) unit :=
  _SimulatedWithAsyncMixin.on_async async_.send.
End fork.

Module child.
Definition _set_waitpid_status (pid status : Z) : M (obj sim_ext) unit :=
  modify (_SimulatedWithAsyncMixin.set_waitpid pid status) ;;;
  _SimulatedWithAsyncMixin.on_async async_.send.
End child.

(** ** Concrete instances

    A platform on which every native call succeeds, one on which polling
    is refused, an empty world, and watchers built on the base class as the
    spec describes it. *)

Definition repr0 (v : pyval) : string :=
  match v with
  | PNone => "None"
  | PInt z => if z =? 0 then "0" else if z =? 1 then "1" else "<int>"
  | PStr s => ("'" ++ s ++ "'")%string
  | PCData _ => "<cdata>"
  | PCallback _ => "<callback>"
  | PWatcher _ => "<watcher>"
  end.

Definition sys_ok : platform :=
  Platform (fun _ _ => 0) (fun _ => "UNKNOWN") (fun _ => "unknown error") repr0.

Definition UV_EBADF : Z := -9.

Definition sys_ebadf : platform :=
  Platform (fun fn _ => match fn with F_poll_start => UV_EBADF | _ => 0 end)
           (fun _ => "EBADF") (fun _ => "bad file descriptor") repr0.

Definition world0 (p : platform) : world :=
  World p ∅ 0 [] false ∅ [] 1%nat.

(** A watcher the constructor has just returned, in the spec's
    [uninitialized] state. *)
Definition fresh_base (id : nat) : base_fields :=
  BaseFields id 0%nat None None None None Uninitialized true.

(** A watcher whose handle at address [p] is allocated and stopped. *)
Definition stopped_base (id : nat) (p : ptr) : base_fields :=
  BaseFields id 0%nat (Some p) None None None Stopped true.

Definition timer_base (init_args : float * float) : Base timer_ext :=
  spec_base.base (timer.timer_hooks init_args).
Definition async_base : Base unit := spec_base.base async_.async_hooks.
Definition io_base : Base io_ext := spec_base.base io.io_hooks.

Definition fresh_timer : obj timer_ext :=
  Obj (fresh_base 1) (TimerExt 0 0 false) (world0 sys_ok).

Definition fresh_async : obj unit := Obj (fresh_base 2) tt (world0 sys_ok).

(** A world with one initialised handle of type [t] at address 1. *)
Definition world1 (p : platform) (t : Z) (act : bool) : world :=
  World p {[ 1%nat := init_handle t act zeroed ]} 0 [] false ∅ [] 2%nat.

(** The literal [0.0005], as binary64 rounds it. *)
Definition half_ms : float := 0x1.0624dd2f1a9fcp-11%float.

(** A timer whose handle memory is allocated at address 1 but not yet
    initialised, at loop time 100. *)
Definition allocated_timer : obj timer_ext :=
  Obj (stopped_base 1 1) (TimerExt 0 0 false)
      (World sys_ok {[ 1%nat := zeroed ]} 100 [] false ∅ [] 2%nat).

(** ** What the spec asks of [again] *)

(** The call makes exactly one native call, [uv_timer_again] on the
    watcher's handle. *)
Definition requests_native_restart `{B : Base timer_ext} (s : obj timer_ext)
    (callback : cb) (args : list pyval) (kw : list (string * pyval)) : Prop :=
  exists (p : ptr) (s' : obj timer_ext),
    _watcher (bw s) = Some p /\
    timer.again callback args kw s = Ok tt s' /\
    uv_calls (env s') = uv_calls (env s) ++ [(F_timer_again, [PCData p])].

(** A timer that was started and then stopped. *)
Definition started_then_stopped_timer : obj timer_ext :=
  final_state
    ((inherited.start (Base := timer_base (0.5, 0.5)%float) 5%nat [] [] ;;;
      inherited.stop (Base := timer_base (0.5, 0.5)%float)) fresh_timer).

(** A timer that was started and is still running. *)
Definition running_timer : obj timer_ext :=
  final_state
    (inherited.start (Base := timer_base (0.5, 0.5)%float) 5%nat [] [] fresh_timer).

(** ** What the dispatch delivers *)

(** [(events & watcher.events) or events < 0] *)
Definition wants (events : Z) (w : multiplexwatcher) : bool :=
  negb (Z.land events (mw_events w) =? 0) || (events <? 0).

(** A sub-watcher is started while it has a callback. *)
Definition started (w : multiplexwatcher) : bool :=
  bool_decide (mw_callback w <> None).

(** The call a started sub-watcher receives for [events]. *)
Definition invocation (events : Z) (w : multiplexwatcher)
  : option (cb * list pyval) :=
  match mw_callback w, mw_args w with
  | Some c, Some a => Some (c, if pass_events w then PInt events :: a else a)
  | _, _ => None
  end.

(** The calls owed for [events]: one to each started sub-watcher that
    wants them, in registration order. *)
Definition deliveries (events : Z) (ws : list multiplexwatcher)
  : list (cb * list pyval) :=
  omap (invocation events)
       (List.filter (fun w => started w && wants events w) ws).

(** The sub-watchers of [s], in registration order. *)
Definition sub_watchers (s : obj io_ext) : list multiplexwatcher :=
  map (fun id => io.deref id s) (io.watchers s).


(** A callback that returns normally and leaves the io watcher's own
    attributes, its sub-watchers among them, as they were. *)
Definition leaves_io_alone (run : cb -> list pyval -> M (obj io_ext) unit)
    (c : cb) (a : list pyval) : Prop :=
  forall t : obj io_ext,
    exists t' : obj io_ext,
      run c a t = Ok tt t'
      /\ ext t' = ext t /\ self_id (bw t') = self_id (bw t).


(** Callbacks that return at once. *)
Definition returns_at_once (c : cb) (a : list pyval) : M (obj io_ext) unit :=
  ret tt.


(** Callbacks of which [c0] closes the sub-watcher [id], on the base class
    as the spec describes it, and the others return at once. *)
Definition one_closes (c0 : cb) (id : nat) (c : cb) (a : list pyval)
  : M (obj io_ext) unit :=
  if decide (c = c0)
  then io._multiplexwatcher.close (B := io_base) id
  else ret tt.

(** An io watcher for fd 7 with the given sub-watchers, polling with mask
    [events] on the handle at address 1. *)
Definition io_with (events : Z) (ids : list nat)
    (objs : gmap nat multiplexwatcher) (next : nat) : obj io_ext :=
  Obj (BaseFields 1 0%nat (Some 1%nat) (Some 1%nat) (Some io.io_callback_id)
                  (Some []) Active true)
      (IoExt 7 events (Some ids) objs next [] [])
      (World sys_ok
             {[ 1%nat := with_active true
                           (with_events events (init_handle UV_POLL false zeroed)) ]}
             0 [] false ∅ [] 2%nat).

(** fd 7 with a READ and a WRITE sub-watcher, both started. *)
Definition fd7_read_write : obj io_ext :=
  io_with 3 [0; 1]%nat
    {[ 0%nat := MW UV_READABLE (Some 10%nat) (Some []) false (Some 1%nat);
       1%nat := MW UV_WRITABLE (Some 11%nat) (Some [PStr "w"]) true (Some 1%nat) ]}
    2.

(** fd 7 with a READ sub-watcher that is started and a WRITE sub-watcher
    that is registered but not started. *)
Definition fd7_read_only_started : obj io_ext :=
  io_with 3 [0; 1]%nat
    {[ 0%nat := MW UV_READABLE (Some 10%nat) (Some []) false (Some 1%nat);
       1%nat := MW UV_WRITABLE None (Some []) false (Some 1%nat) ]}
    2.

(** fd 7 with two READ sub-watchers, both started. *)
Definition fd7_two_readers : obj io_ext :=
  io_with 1 [0; 1]%nat
    {[ 0%nat := MW UV_READABLE (Some 10%nat) (Some []) false (Some 1%nat);
       1%nat := MW UV_READABLE (Some 11%nat) (Some []) false (Some 1%nat) ]}
    2.

(** A listed sub-watcher that is started refers back to this io watcher
    and has its arguments. *)
Definition sub_watcher_ok (s : obj io_ext) (id : nat) : Prop :=
  mw_callback (io.deref id s) <> None ->
  _watcher_ref (io.deref id s) = Some (self_id (bw s))
  /\ mw_args (io.deref id s) <> None.

(** A handle libuv may be asked to close: initialised and not closing. *)
Definition live (p : ptr) (w : world) : Prop :=
  h_type (mem p w) <> 0 /\ h_closing (mem p w) = false.

(** The sub-watcher's link to its owner, cleared. *)
Definition forget_owner (id : nat) (s : obj io_ext) : obj io_ext :=
  let w := io.deref id s in
  io.set_object id
    (MW (mw_events w) (mw_callback w) (mw_args w) (pass_events w) None) s.

(** fd 7 with one READ sub-watcher, started; the io watcher is polling. *)
Definition fd7_last_reader : obj io_ext :=
  io_with 1 [0]%nat
    {[ 0%nat := MW UV_READABLE (Some 10%nat) (Some []) false (Some 1%nat) ]}
    1.

(** [loop.async_()] as the loop would build it: a handle is allocated and
    given to [uv_async_init]. *)
Definition loop_async_with_handle : M world base_fields :=
  fun w =>
    let pw := ffi_new w in
    match _LIB F_async_init
               [PWatcher 2; PCData 0; PCData (fst pw); PNone] (snd pw) with
    | Ok _ w' => Ok (stopped_base 2 (fst pw)) w'
    | Raise e w' => Raise e w'
    end.

(** The rest of [__init__] refusing the arguments, as the child watcher
    does off the default loop. *)
Definition super_init_refuses : M (obj sim_ext) unit := raise TypeError.

(** A simulated watcher before [__init__] has run. *)
Definition blank_sim : obj sim_ext :=
  Obj (fresh_base 3) (SimExt None false None None) (world0 sys_ok).

(** ** The armed mask and the sub-watchers' masks *)

(** [events |= watcher.events] over the listed sub-watchers, from 0. *)
Definition union_of_masks (s : obj io_ext) (ids : list nat) : Z :=
  fold_left (fun events id => Z.lor events (mw_events (io.deref id s))) ids 0.

(** The same over the started sub-watchers only: the spec's "active"
    sub-watchers. *)
Definition union_of_active_masks (s : obj io_ext) : Z :=
  fold_left (fun events id => Z.lor events (mw_events (io.deref id s)))
            (List.filter (fun id => started (io.deref id s)) (io.watchers s)) 0.

(** The mask the io watcher's native handle is armed with, if it is
    polling. *)
Definition handle_mask (s : obj io_ext) : option Z :=
  match _watcher (bw s) with
  | Some p => armed_mask p (env s)
  | None => None
  end.

(** The invariant as the spec words it. *)
Definition armed_with_union_of_active (s : obj io_ext) : Prop :=
  handle_mask s = Some (union_of_active_masks s).

(** The io watcher reports itself active exactly while its handle polls,
    and the handle then polls for the stored mask. *)
Definition coherent `{B : Base io_ext} (s : obj io_ext) : Prop :=
  (inherited.active s = true <-> handle_mask s <> None)
  /\ forall m : Z, handle_mask s = Some m -> m = _events (ext s).

(** The invariant as the code keeps it: until the io watcher has closed
    down and dropped its list, it is coherent, and while sub-watchers are
    registered the stored mask is the union of all their masks. *)
Definition mask_invariant `{B : Base io_ext} (s : obj io_ext) : Prop :=
  match _multiplex_watchers (ext s) with
  | None => True
  | Some l =>
      coherent s /\ (l <> [] -> _events (ext s) = union_of_masks s l)
  end.

(** What the inherited [active] may look at: the base attributes and
    whether the handle is polling. *)
Definition active_reads_handle `{B : Base io_ext} : Prop :=
  forall s s' : obj io_ext,
    bw s' = bw s ->
    (forall p, _watcher (bw s) = Some p ->
               h_active (mem p (env s')) = h_active (mem p (env s))) ->
    inherited.active s' = inherited.active s.

Inductive mutation : Type :=
| Multiplex (events : Z)     (* io.multiplex(events) *)
| CloseSub (id : nat).       (* the sub-watcher's close() *)

Definition mutate `{B : Base io_ext} (m : mutation) : M (obj io_ext) unit :=
  match m with
  | Multiplex events => io.multiplex events ;;; ret tt
  | CloseSub id => io._multiplexwatcher.close id
  end.

Fixpoint mutate_all `{B : Base io_ext} (ms : list mutation)
  : M (obj io_ext) unit :=
  match ms with
  | [] => ret tt
  | m :: ms' => mutate m ;;; mutate_all ms'
  end.

(** An io watcher for fd 7 as its constructor leaves it. *)
Definition fresh_io : obj io_ext :=
  Obj (fresh_base 1) (IoExt 7 0 (Some []) ∅ 0 [] []) (world0 sys_ok).

(** fd 7 after [multiplex(READ)] and the start of that sub-watcher, on the
    base class as the spec describes it: the handle polls for READ. *)
Definition fd7_reading : obj io_ext :=
  final_state
    ((io.multiplex (B := io_base) UV_READABLE ;;;
      io._multiplexwatcher.start (B := io_base) 0 10 [] []) fresh_io).

(** ** More concrete instances *)

Definition UV_EINVAL : Z := -22.

(** A platform on which one native entry point fails. *)
Definition sys_failing (bad : uv_fn) : platform :=
  Platform (fun fn _ => if bool_decide (fn = bad) then UV_EINVAL else 0)
           (fun _ => "EINVAL") (fun _ => "invalid argument") repr0.

(** A timer whose handle at address 1 is initialised and stopped, with the
    given durations. *)
Definition armable_timer (p : platform) (after repeat : float)
  : obj timer_ext :=
  Obj (stopped_base 1 1) (TimerExt after repeat false) (world1 p UV_TIMER false).

(** A timer whose handle memory at address 1 is allocated but not yet
    initialised. *)
Definition allocated_timer_on (p : platform) : obj timer_ext :=
  Obj (stopped_base 1 1) (TimerExt 0 0 false)
      (World p {[ 1%nat := zeroed ]} 100 [] false ∅ [] 2%nat).

(** The sub-watcher as its [stop()] leaves it. *)
Definition stopped_sub (id : nat) (s : obj io_ext) : obj io_ext :=
  let w := io.deref id s in
  io.set_object id (MW (mw_events w) None None false (_watcher_ref w)) s.

(** The sub-watcher as its [start(callback, args, kwargs)] leaves it. *)
Definition started_sub (id : nat) (callback : cb) (args : list pyval)
    (kwargs : list (string * pyval)) (s : obj io_ext) : obj io_ext :=
  let w := io.deref id s in
  io.set_object id
    (MW (mw_events w) (Some callback) (Some args)
        (truth (kwargs_get "pass_events" kwargs)) (_watcher_ref w)) s.

(** A sequence of mutations without any [multiplex]. *)
Definition only_closes (ms : list mutation) : Prop :=
  Forall (fun m => exists id, m = CloseSub id) ms.

(** The same watcher on another platform. *)
Definition on_platform {X : Type} (p : platform) (s : obj X) : obj X :=
  let w := env s in
  set_env (World p (uv_mem w) (uv_now w) (uv_calls w) (uv_aborted w)
                 (_closing_handles w) (warnings w) (next_ptr w)) s.


(** ** class stat

    [_interval] and [_cpath] are set by the constructor of the mixin.  The
    native [uv_fs_poll_start] is outside the native layer above: it is a
    parameter, reached as every native entry point is, through
    [libuv_error_wrapper]. *)

(** The literal [0.1074891], as binary64 rounds it. *)
Definition MIN_STAT_INTERVAL : float := 0x1.b8467d92d2d60p-4%float.

Record stat_ext : Type := StatExt {
  _interval : float;
  _cpath : string
}.

Module stat.
Definition set_interval (x : float) (s : obj stat_ext) : obj stat_ext :=
  set_ext (StatExt x (_cpath (ext s))) s.

Section Native.
Variable uv_fs_poll_start
  : list pyval -> list (string * pyval) -> M world (option Z).

Definition _watcher_start (args : list pyval) : M world (option Z) :=
  wrap uv_fs_poll_start args [].

Definition _watcher_ffi_start : M (obj stat_ext) unit :=
  s <- get ;;
  (if (_interval (ext s) <? MIN_STAT_INTERVAL)%float
   then modify (set_interval MIN_STAT_INTERVAL)
   else ret tt) ;;;
  s <- get ;;
  interval_ms <- int_ (_interval (ext s) * 1000)%float ;;
  in_env (_watcher_start
            [PWatcher (self_id (bw s)); watcher_arg (bw s); _watcher_callback;
             PStr (_cpath (ext s)); PInt interval_ms]) ;;;
  ret tt.
End Native.
End stat.

(** A native [uv_fs_poll_start] that records the interval it is given as
    the loop time and reports success. *)
Definition fs_poll_start_ok (args : list pyval)
    (kwargs : list (string * pyval)) : M world (option Z) :=
  fun w =>
    match args with
    | [PCData _; PCallback _; PStr _; PInt ms] =>
        Ok (Some 0)
           (World (sys w) (uv_mem w) ms (uv_calls w) (uv_aborted w)
                  (_closing_handles w) (warnings w) (next_ptr w))
    | _ => Raise TypeError w
    end.

(** A stat watcher on [path] with the given interval, its handle
    allocated at address 1. *)
Definition stat_on (path : string) (interval : float) : obj stat_ext :=
  Obj (stopped_base 3 1) (StatExt interval path) (world0 sys_ok).

(** A child watcher whose async watcher owns the handle at address 1. *)
Definition child_with_async (closing : bool) : obj sim_ext :=
  Obj (fresh_base 4) (SimExt (Some (stopped_base 2 1)) false None None)
      (World sys_ok
             {[ 1%nat := with_closing closing (init_handle UV_ASYNC true zeroed) ]}
             0 [] false ∅ [] 2%nat).


(** The registered sub-watchers are distinct objects, all created by this
    io watcher. *)
Definition well_listed (s : obj io_ext) : Prop :=
  NoDup (io.watchers s)
  /\ Forall (fun i : nat => (i < next_id (ext s))%nat) (io.watchers s).

(** * Properties *)

(** ** The native layer: reading memory after a write *)

Lemma mem_set_mem (p q : ptr) (f : uv_handle -> uv_handle) (w : world) :
  mem q (set_mem p f w) = if decide (q = p) then f (mem p w) else mem q w.
Proof.
  unfold mem, set_mem; simpl.
  destruct (decide (q = p)) as [->|Hne].
  - by rewrite lookup_insert_eq.
  - by rewrite lookup_insert_ne.
Qed.

Lemma mem_set_mem_eq (p : ptr) (f : uv_handle -> uv_handle) (w : world) :
  mem p (set_mem p f w) = f (mem p w).
Proof. rewrite mem_set_mem. by destruct (decide (p = p)). Qed.

Lemma mem_log_call (q : ptr) fn a (w : world) : mem q (log_call fn a w) = mem q w.
Proof. reflexivity. Qed.

Lemma mem_set_closing_handles (q : ptr) c (w : world) :
  mem q (set_closing_handles c w) = mem q w.
Proof. reflexivity. Qed.

(** ** Closing a handle *)

Lemma watcher_ffi_close_skips (p : ptr) (w : world) :
  h_type (mem p w) = 0 \/ h_closing (mem p w) = true ->
  watcher._watcher_ffi_close p w = set_mem p (with_data None) w.
Proof.
  intros H. unfold watcher._watcher_ffi_close, uv_is_closing.
  destruct H as [-> | ->]; simpl; [done|].
  by rewrite andb_false_r.
Qed.

Lemma watcher_ffi_close_live (p : ptr) (w : world) :
  h_type (mem p w) <> 0 -> h_closing (mem p w) = false ->
  watcher._watcher_ffi_close p w
  = set_mem p (with_data None)
      (uv_close p (set_closing_handles ({[p]} ∪ _closing_handles w) w)).
Proof.
  intros Ht Hc. unfold watcher._watcher_ffi_close, uv_is_closing.
  rewrite Hc. apply Z.eqb_neq in Ht. by rewrite Ht.
Qed.

Lemma uv_close_live (p : ptr) (w : world) :
  h_type (mem p w) <> 0 -> h_closing (mem p w) = false ->
  uv_close p w
  = set_mem p (fun h => with_active false (with_closing true h))
      (log_call F_close [PCData p] w).
Proof.
  intros Ht Hc. unfold uv_close. rewrite Hc. apply Z.eqb_neq in Ht.
  by rewrite Ht.
Qed.

(** C3.  [_watcher_ffi_close] asks libuv to close a handle at most once.
    On a handle whose [type] is unset, or that is already closing, it makes
    no native call, leaves [_closing_handles] alone and changes nothing of
    the handle but the [data] pointer it always clears.  On a live handle
    the first call registers the handle in [_closing_handles] and calls
    [uv_close] once; a second call adds nothing.  libuv is therefore never
    asked to close an uninitialised or closing handle, which would
    terminate the process. *)
Theorem watcher_ffi_close_idempotent (p : ptr) (w : world) :
  let w1 := watcher._watcher_ffi_close p w in
  let w2 := watcher._watcher_ffi_close p w1 in
  (h_type (mem p w) = 0 \/ h_closing (mem p w) = true ->
     uv_calls w1 = uv_calls w /\
     _closing_handles w1 = _closing_handles w /\
     uv_aborted w1 = uv_aborted w /\
     forall q, mem q w1 = if decide (q = p) then with_data None (mem p w)
                          else mem q w)
  /\ (h_type (mem p w) <> 0 -> h_closing (mem p w) = false ->
     uv_calls w1 = uv_calls w ++ [(F_close, [PCData p])] /\
     _closing_handles w1 = {[p]} ∪ _closing_handles w /\
     h_closing (mem p w1) = true /\
     uv_calls w2 = uv_calls w1 /\
     count_calls F_close p w2 = S (count_calls F_close p w))
  /\ (count_calls F_close p w2 <= S (count_calls F_close p w))%nat
  /\ uv_aborted w2 = uv_aborted w.
Proof.
  intros w1 w2.
  assert (Hskip : h_type (mem p w) = 0 \/ h_closing (mem p w) = true ->
                  w1 = set_mem p (with_data None) w /\
                  w2 = set_mem p (with_data None) w1).
  { intros H. subst w1 w2.
    rewrite (watcher_ffi_close_skips p w H). split; [done|].
    apply watcher_ffi_close_skips.
    rewrite mem_set_mem_eq. simpl. exact H. }
  assert (Hlive : h_type (mem p w) <> 0 -> h_closing (mem p w) = false ->
                  w1 = set_mem p (with_data None)
                         (set_mem p (fun h => with_active false (with_closing true h))
                            (log_call F_close [PCData p]
                               (set_closing_handles ({[p]} ∪ _closing_handles w) w))) /\
                  w2 = set_mem p (with_data None) w1).
  { intros Ht Hc. subst w1 w2.
    rewrite (watcher_ffi_close_live p w Ht Hc).
    rewrite (uv_close_live p (set_closing_handles ({[p]} ∪ _closing_handles w) w)
               Ht Hc).
    split; [done|].
    apply watcher_ffi_close_skips. right.
    by rewrite !mem_set_mem_eq. }
  split; [|split; [|split]].
  - intros H. destruct (Hskip H) as [-> _]. repeat split.
    intros q. apply mem_set_mem.
  - intros Ht Hc. destruct (Hlive Ht Hc) as [E1 E2].
    rewrite E2, E1. simpl. repeat split.
    + by rewrite !mem_set_mem_eq.
    + unfold count_calls. simpl. rewrite List.filter_app, length_app. simpl.
      rewrite bool_decide_true by done. simpl. lia.
  - destruct (Z.eq_dec (h_type (mem p w)) 0) as [Hz|Hnz].
    + destruct (Hskip (or_introl Hz)) as [E1 E2]. rewrite E2, E1.
      unfold count_calls. simpl. lia.
    + destruct (h_closing (mem p w)) eqn:Hc.
      * destruct (Hskip (or_intror eq_refl)) as [E1 E2]. rewrite E2, E1.
        unfold count_calls. simpl. lia.
      * destruct (Hlive Hnz eq_refl) as [E1 E2]. rewrite E2, E1.
        unfold count_calls. simpl. rewrite List.filter_app, length_app. simpl.
        rewrite bool_decide_true by done. simpl. lia.
  - destruct (Z.eq_dec (h_type (mem p w)) 0) as [Hz|Hnz].
    + destruct (Hskip (or_introl Hz)) as [E1 E2]. by rewrite E2, E1.
    + destruct (h_closing (mem p w)) eqn:Hc.
      * destruct (Hskip (or_intror eq_refl)) as [E1 E2]. by rewrite E2, E1.
      * destruct (Hlive Hnz eq_refl) as [E1 E2]. by rewrite E2, E1.
Qed.

Example watcher_ffi_close_idempotent_witness :
  let live := world1 sys_ok UV_TIMER true in
  let once := watcher._watcher_ffi_close 1 live in
  let twice := watcher._watcher_ffi_close 1 once in
  uv_calls once = [(F_close, [PCData 1])]
  /\ uv_calls twice = [(F_close, [PCData 1])]
  /\ _closing_handles once = {[1%nat]} ∪ ∅
  /\ uv_aborted twice = false
  /\ uv_calls (watcher._watcher_ffi_close 5 live) = []
  /\ _closing_handles (watcher._watcher_ffi_close 5 live) = ∅.
Proof.
  intros live once twice.
  pose proof (watcher_ffi_close_idempotent 1 live) as (_ & Hlive & _ & Hab).
  destruct Hlive as (Hc1 & Hset & _ & Hc2 & _);
    [vm_compute; discriminate | reflexivity |].
  pose proof (watcher_ffi_close_idempotent 5 live) as (Hskip & _).
  destruct Hskip as (Hc5 & Hs5 & _); [left; reflexivity|].
  split; [exact Hc1|]. split; [exact (eq_trans Hc2 Hc1)|].
  split; [exact Hset|]. split; [exact Hab|]. split; [exact Hc5|exact Hs5].
Defined.

(** ** The error wrapper *)

Lemma string_append_assoc (a b c : string) :
  ((a ++ b) ++ c = a ++ (b ++ c))%string.
Proof.
  induction a as [|x a IH]; [reflexivity|].
  change (String x ((a ++ b) ++ c) = String x (a ++ (b ++ c)))%string.
  by rewrite IH.
Qed.

Lemma wrap_unfold
    (libuv_func : list pyval -> list (string * pyval) -> M world (option Z))
    (args : list pyval) (kwargs : list (string * pyval)) (w : world) :
  wrap libuv_func args kwargs w
  = match libuv_func (native_args args) kwargs w with
    | Ok (Some r) w' =>
        if r <? 0
        then Raise (UVFuncallError
                      (funcall_error_message (sys w') r (native_args args) kwargs)) w'
        else Ok (Some r) w'
    | Ok None w' => Ok None w'
    | Raise e w' => Raise e w'
    end.
Proof.
  unfold wrap, bind.
  destruct (libuv_func (native_args args) kwargs w) as [[r|] w'|e w']; try done.
  by destruct (r <? 0).
Qed.

(** C7.  A native entry point reached through [libuv_error_wrapper]: if the
    native call returns a negative status, the wrapper raises
    [UVFuncallError] with a message that carries libuv's error name,
    libuv's error message and the arguments of the call; if it returns a
    status that is not negative, or None, the wrapper returns that result
    unchanged and raises nothing. *)
Theorem wrap_checks_status
    (libuv_func : list pyval -> list (string * pyval) -> M world (option Z))
    (args : list pyval) (kwargs : list (string * pyval)) (w w' : world)
    (res : option Z) :
  libuv_func (native_args args) kwargs w = Ok res w' ->
  match res with
  | Some r =>
      if r <? 0
      then let msg := funcall_error_message (sys w') r (native_args args) kwargs in
           wrap libuv_func args kwargs w = Raise (UVFuncallError msg) w' /\
           contains (uv_err_name (sys w') r) msg /\
           contains (uv_strerror (sys w') r) msg /\
           contains (repr_tuple (repr (sys w')) (native_args args)) msg
      else wrap libuv_func args kwargs w = Ok (Some r) w'
  | None => wrap libuv_func args kwargs w = Ok None w'
  end.
Proof.
  intros Hcall.
  pose proof (wrap_unfold libuv_func args kwargs w) as Hw.
  rewrite Hcall in Hw.
  destruct res as [r|]; [|exact Hw].
  destruct (r <? 0); [|exact Hw].
  split; [exact Hw|]. unfold funcall_error_message.
  split; [|split].
  - exists ""%string. eexists. simpl. rewrite !string_append_assoc. reflexivity.
  - exists (uv_err_name (sys w') r ++ " ")%string. eexists.
    rewrite !string_append_assoc. reflexivity.
  - exists ((uv_err_name (sys w') r ++ " " ++ uv_strerror (sys w') r)
              ++ " Args: ")%string.
    eexists. rewrite !string_append_assoc. reflexivity.
Qed.

Example wrap_checks_status_witness :
  _LIB F_poll_start [PWatcher 7; PCData 1; PInt 1; PCallback 0]
       (world1 sys_ebadf UV_POLL false)
  = Raise (UVFuncallError
             "EBADF bad file descriptor Args: (<cdata>, 1, <callback>) KWARGS: {}")
          (log_call F_poll_start [PCData 1; PInt 1; PCallback 0]
             (world1 sys_ebadf UV_POLL false))
  /\ _LIB F_poll_start [PWatcher 7; PCData 1; PInt 1; PCallback 0]
          (world1 sys_ok UV_POLL false)
     = Ok (Some 0)
          (set_mem 1 (fun x => with_active true (with_events 1 x))
             (log_call F_poll_start [PCData 1; PInt 1; PCallback 0]
                (world1 sys_ok UV_POLL false))).
Proof.
  split.
  - exact (proj1 (wrap_checks_status (libuv F_poll_start)
                    [PWatcher 7; PCData 1; PInt 1; PCallback 0] []
                    (world1 sys_ebadf UV_POLL false) _ _ eq_refl)).
  - exact (wrap_checks_status (libuv F_poll_start)
             [PWatcher 7; PCData 1; PInt 1; PCallback 0] []
             (world1 sys_ok UV_POLL false) _ _ eq_refl).
Defined.

(** ** The async watcher *)

(** C8.  [send()] on an async watcher whose native handle is closing raises
    and makes no native call: the state, call log included, is as it was.
    When the handle is not closing, [send()] calls [uv_async_send] on it. *)
Theorem async_send_needs_live_handle (s : obj unit) (p : ptr) :
  _watcher (bw s) = Some p ->
  (uv_is_closing p (env s) = true ->
     async_.send s = Raise (Exception_ "Closing handle") s)
  /\ (uv_is_closing p (env s) = false ->
     exists s', async_.send s = Ok tt s' /\
       uv_calls (env s') = uv_calls (env s) ++ [(F_async_send, [PCData p])]).
Proof.
  intros Hw. unfold async_.send. rewrite Hw. split; intros ->.
  - reflexivity.
  - eexists. split; [reflexivity|]. reflexivity.
Qed.

Example async_send_needs_live_handle_witness :
  let live := Obj (stopped_base 2 1) tt (world1 sys_ok UV_ASYNC true) in
  let closing := Obj (stopped_base 2 1) tt
                     (watcher._watcher_ffi_close 1 (world1 sys_ok UV_ASYNC true)) in
  async_.send closing = Raise (Exception_ "Closing handle") closing
  /\ exists s', async_.send live = Ok tt s' /\
       uv_calls (env s') = [(F_async_send, [PCData 1])].
Proof.
  intros live closing. split.
  - exact (proj1 (async_send_needs_live_handle closing 1 eq_refl) eq_refl).
  - exact (proj2 (async_send_needs_live_handle live 1 eq_refl) eq_refl).
Defined.

(** ** ref and unref *)

(** C9.  Setting [ref] to False on a watcher that has no native handle
    yet is a no-op: it returns normally and leaves the watcher and the
    world as they were; [ref] reads None as long as there is no handle; and
    a [start()] that follows behaves as it would have without the unref. *)
Theorem unref_before_init_is_noop {X : Type} `{B : Base X} (s : obj X) :
  _watcher (bw s) = None ->
  watcher._set_ref false s = Ok tt s
  /\ watcher._get_ref s = None
  /\ forall (callback : cb) (args : list pyval) (kw : list (string * pyval)),
       (watcher._set_ref false ;;; inherited.start callback args kw) s
       = inherited.start callback args kw s.
Proof.
  intros Hw.
  assert (H1 : watcher._set_ref (X:=X) false s = Ok tt s).
  { unfold watcher._set_ref, watcher._watcher_ffi_unref, only_if_watcher.
    by rewrite Hw. }
  split; [exact H1|]. split.
  - unfold watcher._get_ref. by rewrite Hw.
  - intros. unfold bind. by rewrite H1.
Qed.

Example unref_before_init_is_noop_witness :
  watcher._set_ref false fresh_timer = Ok tt fresh_timer
  /\ watcher._get_ref fresh_timer = None
  /\ forall callback args kw,
       (watcher._set_ref false ;;;
        inherited.start (Base := timer_base (0, 0)%float) callback args kw) fresh_timer
       = inherited.start (Base := timer_base (0, 0)%float) callback args kw fresh_timer.
Proof.
  exact (unref_before_init_is_noop (B := timer_base (0, 0)%float) fresh_timer eq_refl).
Defined.

(** ** The timer *)

Lemma timer_init_runs (after repeat : float) (s : obj timer_ext) (p : ptr) :
  _watcher (bw s) = Some p ->
  0 <= uv_rc (sys (env s)) F_timer_init [PCData (loop_ptr (bw s)); PCData p] ->
  timer._watcher_ffi_init (after, repeat) s
  = Ok tt
      (Obj (bw s)
           (TimerExt (if below_resolution after then one_ms else after)
                     (if below_resolution repeat then one_ms else repeat)
                     (_again (ext s)))
           (let w1 := set_mem p (init_handle UV_TIMER false)
                        (log_call F_timer_init
                           [PCData (loop_ptr (bw s)); PCData p] (env s)) in
            let w2 := if below_resolution after
                      then warn resolution_warning w1 else w1 in
            if below_resolution repeat then warn resolution_warning w2 else w2)).
Proof.
  intros Hw Hrc. destruct s as [b x w]. simpl in *.
  unfold timer._watcher_ffi_init, bind, get, in_env, zoom, _LIB. simpl.
  rewrite wrap_unfold. unfold watcher_arg. rewrite Hw. simpl.
  unfold fallible. simpl.
  apply Z.ltb_ge in Hrc. rewrite Hrc. simpl.
  destruct (below_resolution after); simpl;
    destruct (below_resolution repeat); reflexivity.
Qed.

Lemma timer_start_runs (s : obj timer_ext) (p : ptr) (az rz : Z) :
  _watcher (bw s) = Some p ->
  _again (ext s) = false ->
  int_of_float (_after (ext s) * 1000) = inr az ->
  int_of_float (_repeat (ext s) * 1000) = inr rz ->
  fits_uint64 az = true -> fits_uint64 rz = true ->
  0 <= uv_rc (sys (env s)) F_timer_start
         [PCData p; _watcher_callback; PInt az; PInt rz] ->
  timer._watcher_ffi_start s
  = Ok tt
      (set_env
         (set_mem p (fun x => with_active true
                                (with_timer (uv_now (env s) + az) rz x))
            (log_call F_timer_start
               [PCData p; _watcher_callback; PInt az; PInt rz] (env s))) s).
Proof.
  intros Hw Hag Ha Hr Hfa Hfr Hrc. destruct s as [b x w]. simpl in *.
  unfold timer._watcher_ffi_start, bind, get, try_except, int_, in_env, zoom, _LIB.
  simpl. rewrite Hag, Ha, Hr. simpl.
  rewrite wrap_unfold. unfold watcher_arg. rewrite Hw. simpl.
  rewrite Hfa, Hfr. simpl. unfold fallible. simpl.
  apply Z.ltb_ge in Hrc. rewrite Hrc. reflexivity.
Qed.

Lemma one_ms_in_int : int_of_float (one_ms * 1000) = inr 1.
Proof. reflexivity. Qed.

(** C5.  A timer's durations are floored at one millisecond.  When the
    handle is initialised with [(after, repeat)], each duration that is not
    zero and is below 0.001 is replaced by exactly 0.001 and a warning is
    logged for it; initialisation still returns normally.  When such a
    timer is then armed, libuv is given a timeout of 1 ms, so the timer
    does not fire while the loop clock is less than one millisecond past
    the time of arming. *)
Theorem timer_resolution_floor (after repeat : float) (s : obj timer_ext)
    (p : ptr) :
  _watcher (bw s) = Some p ->
  _again (ext s) = false ->
  0 <= uv_rc (sys (env s)) F_timer_init [PCData (loop_ptr (bw s)); PCData p] ->
  exists s1,
    timer._watcher_ffi_init (after, repeat) s = Ok tt s1
    /\ _after (ext s1) = (if below_resolution after then one_ms else after)
    /\ _repeat (ext s1) = (if below_resolution repeat then one_ms else repeat)
    /\ warnings (env s1)
       = warnings (env s)
           ++ (if below_resolution after then [resolution_warning] else [])
           ++ (if below_resolution repeat then [resolution_warning] else [])
    /\ (below_resolution after = true ->
        forall rz : Z,
          int_of_float (_repeat (ext s1) * 1000) = inr rz ->
          fits_uint64 rz = true ->
          0 <= uv_rc (sys (env s)) F_timer_start
                 [PCData p; _watcher_callback; PInt 1; PInt rz] ->
          exists s2,
            timer._watcher_ffi_start s1 = Ok tt s2
            /\ uv_calls (env s2)
               = uv_calls (env s1)
                   ++ [(F_timer_start,
                        [PCData p; _watcher_callback; PInt 1; PInt rz])]
            /\ h_due (mem p (env s2)) = uv_now (env s) + 1
            /\ forall t : Z, t < uv_now (env s) + 1 ->
                 timer_fires p t (env s2) = false).
Proof.
  intros Hw Hag Hrc.
  pose proof (timer_init_runs after repeat s p Hw Hrc) as Hinit.
  match type of Hinit with _ = Ok tt ?x => set (s1 := x) in * end.
  assert (Hsys : sys (env s1) = sys (env s))
    by (subst s1; simpl; by destruct (below_resolution after),
                                     (below_resolution repeat)).
  assert (Hnow : uv_now (env s1) = uv_now (env s))
    by (subst s1; simpl; by destruct (below_resolution after),
                                     (below_resolution repeat)).
  assert (Hafter : _after (ext s1)
                   = if below_resolution after then one_ms else after)
    by reflexivity.
  assert (Hrepeat : _repeat (ext s1)
                    = if below_resolution repeat then one_ms else repeat)
    by reflexivity.
  assert (Hwarn : warnings (env s1)
                  = warnings (env s)
                      ++ (if below_resolution after then [resolution_warning] else [])
                      ++ (if below_resolution repeat then [resolution_warning] else [])).
  { subst s1. simpl.
    destruct (below_resolution after), (below_resolution repeat); simpl;
      rewrite ?app_nil_r, <- ?app_assoc; reflexivity. }
  assert (Hw1 : _watcher (bw s1) = Some p) by exact Hw.
  assert (Hag1 : _again (ext s1) = false) by exact Hag.
  clearbody s1.
  exists s1. split; [exact Hinit|].
  split; [exact Hafter|]. split; [exact Hrepeat|]. split; [exact Hwarn|].
  intros Hlow rz Hr Hfr Hrc2.
  assert (Ha : int_of_float (_after (ext s1) * 1000) = inr 1).
  { rewrite Hafter, Hlow. exact one_ms_in_int. }
  rewrite <- Hsys in Hrc2.
  pose proof (timer_start_runs s1 p 1 rz Hw1 Hag1 Ha Hr eq_refl Hfr Hrc2) as Hs.
  eexists. split; [exact Hs|].
  split; [reflexivity|].
  split.
  - cbn [env set_env]. rewrite mem_set_mem_eq. cbn. by rewrite Hnow.
  - intros t Ht. unfold timer_fires. cbn [env set_env].
    rewrite mem_set_mem_eq. cbn. rewrite Hnow. apply Z.leb_gt. lia.
Qed.

Example timer_resolution_floor_witness :
  exists s1 s2,
    timer._watcher_ffi_init (half_ms, 0%float) allocated_timer = Ok tt s1
    /\ _after (ext s1) = one_ms
    /\ warnings (env s1) = [resolution_warning]
    /\ timer._watcher_ffi_start s1 = Ok tt s2
    /\ uv_calls (env s2)
       = uv_calls (env s1)
           ++ [(F_timer_start, [PCData 1; _watcher_callback; PInt 1; PInt 0])]
    /\ forall t : Z, t < 101 -> timer_fires 1 t (env s2) = false.
Proof.
  destruct (timer_resolution_floor half_ms 0%float allocated_timer 1
              eq_refl eq_refl (Z.le_refl 0))
    as (s1 & Hinit & Hafter & Hrepeat & Hwarn & Harm).
  assert (Hr : int_of_float (_repeat (ext s1) * 1000) = inr 0)
    by (rewrite Hrepeat; reflexivity).
  destruct (Harm eq_refl 0 Hr eq_refl (Z.le_refl 0)) as (s2 & Hstart & Hcalls & _ & Hfire).
  exists s1, s2. repeat split; assumption.
Defined.

Lemma timer_start_hook_again (s : obj timer_ext) (p : ptr) :
  _again (ext s) = true -> _watcher (bw s) = Some p ->
  timer._watcher_ffi_start s = Ok tt (set_env (uv_timer_again p (env s)) s).
Proof.
  intros Hag Hw. unfold timer._watcher_ffi_start, bind, get. simpl.
  rewrite Hag, Hw. reflexivity.
Qed.

(** C6, as the code has it.  [again(callback, args)] on a timer that is not
    active, whether it was never started or has been stopped since, is
    [start(callback, args)]: same result, same state.  On an active timer
    it sets [_again] for the duration of [start] and removes it afterwards,
    whatever [start] does; and while [_again] is set, the arming step of
    [start] makes the single native call [uv_timer_again] on the handle and
    does not call [uv_timer_start]. *)
Theorem again_starts_unless_active `{B : Base timer_ext} (s : obj timer_ext)
    (callback : cb) (args : list pyval) (kw : list (string * pyval)) :
  (inherited.active s = false ->
     timer.again callback args kw s = inherited.start callback args kw s)
  /\ (inherited.active s = true ->
     timer.again callback args kw s
     = try_finally (inherited.start callback args kw)
                   (modify (timer.set_again false))
                   (timer.set_again true s))
  /\ (forall p : ptr,
        _again (ext s) = true -> _watcher (bw s) = Some p ->
        exists s',
          timer._watcher_ffi_start s = Ok tt s' /\
          uv_calls (env s') = uv_calls (env s) ++ [(F_timer_again, [PCData p])]).
Proof.
  split; [|split].
  - intros Ha. unfold timer.again, bind, get. by rewrite Ha.
  - intros Ha. unfold timer.again, bind, get, modify. by rewrite Ha.
  - intros p Hag Hw. eexists. split; [apply (timer_start_hook_again s p Hag Hw)|].
    simpl. unfold uv_timer_again. simpl.
    by destruct (0 <? h_repeat _).
Qed.

Example again_starts_unless_active_witness :
  timer.again (B := timer_base (0.5, 0.5)%float) 6 [] [] fresh_timer
  = inherited.start (Base := timer_base (0.5, 0.5)%float) 6 [] [] fresh_timer
  /\ timer.again (B := timer_base (0.5, 0.5)%float) 6 [] []
       started_then_stopped_timer
     = inherited.start (Base := timer_base (0.5, 0.5)%float) 6 [] []
         started_then_stopped_timer
  /\ (exists s',
        timer.again (B := timer_base (0.5, 0.5)%float) 6 [] [] running_timer
        = Ok tt s'
        /\ uv_calls (env s')
           = uv_calls (env running_timer) ++ [(F_timer_again, [PCData 1])]
        /\ _again (ext s') = false).
Proof.
  split; [|split].
  - exact (proj1 (again_starts_unless_active (B := timer_base (0.5, 0.5)%float)
                    fresh_timer 6 [] []) eq_refl).
  - exact (proj1 (again_starts_unless_active (B := timer_base (0.5, 0.5)%float)
                    started_then_stopped_timer 6 [] []) eq_refl).
  - rewrite (proj1 (proj2 (again_starts_unless_active
                             (B := timer_base (0.5, 0.5)%float)
                             running_timer 6 [] [])) eq_refl).
    eexists. split; [vm_compute; reflexivity|]. split; reflexivity.
Defined.

(** C6 as the spec words it fails on a timer that was started and then
    stopped: [again] takes the [start] path there, and the native call made
    is [uv_timer_start], not [uv_timer_again]. *)
Example again_after_stop_counterexample :
  (inherited.start (Base := timer_base (0.5, 0.5)%float) 5 [] [] ;;;
   inherited.stop (Base := timer_base (0.5, 0.5)%float)) fresh_timer
  = Ok tt started_then_stopped_timer
  /\ ~ requests_native_restart (B := timer_base (0.5, 0.5)%float)
         started_then_stopped_timer 6 [] []
  /\ (exists s',
        timer.again (B := timer_base (0.5, 0.5)%float) 6 [] []
          started_then_stopped_timer = Ok tt s'
        /\ uv_calls (env s')
           = uv_calls (env started_then_stopped_timer)
               ++ [(F_timer_start,
                    [PCData 1; _watcher_callback; PInt 500; PInt 500])]).
Proof.
  split; [vm_compute; reflexivity|]. split.
  - intros (p & s' & Hp & Hrun & Hcalls).
    vm_compute in Hp. injection Hp as <-.
    vm_compute in Hrun. injection Hrun as <-.
    vm_compute in Hcalls. discriminate Hcalls.
  - eexists. split; [vm_compute; reflexivity|]. vm_compute. reflexivity.
Qed.

(** ** Dispatch to the sub-watchers *)

Lemma deliveries_cons (events : Z) (w : multiplexwatcher)
    (ws : list multiplexwatcher) :
  deliveries events (w :: ws)
  = (if started w && wants events w
     then match invocation events w with Some ca => [ca] | None => [] end
     else [])
    ++ deliveries events ws.
Proof.
  unfold deliveries. cbn [List.filter].
  destruct (started w && wants events w); [|reflexivity].
  cbn. by destruct (invocation events w).
Qed.

Lemma deliveries_nil (events : Z) : deliveries events [] = [].
Proof. reflexivity. Qed.

Lemma deliveries_split (events : Z) (w : multiplexwatcher)
    (ws : list multiplexwatcher) :
  deliveries events (w :: ws) = deliveries events [w] ++ deliveries events ws.
Proof.
  rewrite (deliveries_cons events w ws), (deliveries_cons events w []).
  by rewrite deliveries_nil, app_nil_r.
Qed.

Lemma deliveries_single (events : Z) (w : multiplexwatcher) :
  deliveries events [w] = []
  \/ exists ca : cb * list pyval, deliveries events [w] = [ca].
Proof.
  rewrite deliveries_cons, deliveries_nil, app_nil_r.
  destruct (started w && wants events w); [|by left].
  destruct (invocation events w) as [ca|]; [right; by exists ca | by left].
Qed.

(** One pass through the body of the loop: nothing for a sub-watcher that
    is owed no call, the call otherwise. *)
Lemma visit_unfold (run : cb -> list pyval -> M (obj io_ext) unit)
    (events : Z) (id : nat) (t : obj io_ext) :
  sub_watcher_ok t id ->
  io.visit run events id t
  = match deliveries events [io.deref id t] with
    | [] => Ok tt t
    | (c, a) :: _ => run c a (io.record c a t)
    end.
Proof.
  intros Hok. rewrite deliveries_cons, deliveries_nil, app_nil_r.
  unfold io.visit. unfold bind at 1, get at 1.
  unfold started, invocation, sub_watcher_ok in *.
  fold (wants events (io.deref id t)).
  destruct (mw_callback (io.deref id t)) as [c|] eqn:Hc.
  - destruct Hok as [Href Hargs]; [done|].
    rewrite (bool_decide_true (Some c <> None)) by done.
    rewrite (bool_decide_true (_watcher_ref _ = _)) by exact Href.
    cbn [andb]. unfold bind at 1, ret at 1.
    destruct (wants events (io.deref id t)); [|reflexivity].
    destruct (mw_args (io.deref id t)) as [a|]; [|done].
    by destruct (pass_events (io.deref id t)).
  - by rewrite bool_decide_false by (intros Hne; by apply Hne).
Qed.

Lemma drop_head (l rest : list nat) (i id : nat) :
  drop i l = id :: rest -> l !! i = Some id /\ drop (S i) l = rest.
Proof.
  intros Hd.
  assert (Hl : l !! i = Some id).
  { rewrite <- (Nat.add_0_r i), <- lookup_drop, Hd. reflexivity. }
  split; [exact Hl|]. rewrite (drop_S l id i Hl) in Hd. by injection Hd.
Qed.

Lemma drop_end (l : list nat) (i : nat) : drop i l = [] -> l !! i = None.
Proof.
  intros Hd. rewrite <- (Nat.add_0_r i), <- lookup_drop, Hd. reflexivity.
Qed.

Lemma sub_watcher_ok_frame (t t' : obj io_ext) (id : nat) :
  objects (ext t') = objects (ext t) ->
  self_id (bw t') = self_id (bw t) ->
  sub_watcher_ok t id -> sub_watcher_ok t' id.
Proof.
  intros Ho Hs. unfold sub_watcher_ok, io.deref. by rewrite Ho, Hs.
Qed.

(** The loop from position [i] on, while every callback it calls leaves the
    io watcher alone. *)
Lemma deliver_quiet (run : cb -> list pyval -> M (obj io_ext) unit)
    (events : Z) (l : list nat) :
  forall (rest : list nat) (i : nat) (t : obj io_ext) (fuel : nat),
    _multiplex_watchers (ext t) = Some l ->
    drop i l = rest ->
    (length rest < fuel)%nat ->
    Forall (sub_watcher_ok t) rest ->
    (forall (c : cb) (a : list pyval),
       In (c, a) (deliveries events (map (fun id => io.deref id t) rest)) ->
       leaves_io_alone run c a) ->
    exists t' : obj io_ext,
      io.deliver run fuel events i t = Some (Ok tt t')
      /\ self_id (bw t') = self_id (bw t)
      /\ objects (ext t') = objects (ext t)
      /\ _multiplex_watchers (ext t') = Some l
      /\ invoked (ext t')
         = invoked (ext t)
             ++ deliveries events (map (fun id => io.deref id t) rest).
Proof.
  induction rest as [|id rest IH]; intros i t fuel Hl Hd Hfuel Hok Hq.
  - destruct fuel as [|fuel]; [cbn in Hfuel; lia|].
    exists t. cbn [io.deliver]. unfold io.iterated. rewrite Hl.
    rewrite (drop_end l i Hd). cbn [map]. rewrite deliveries_nil, app_nil_r.
    by repeat split.
  - destruct fuel as [|fuel]; [cbn in Hfuel; lia|].
    cbn [length] in Hfuel.
    destruct (drop_head l rest i id Hd) as [Hi Hd'].
    apply Forall_cons in Hok. destruct Hok as [Hid Hrest].
    cbn [io.deliver]. unfold io.iterated at 1. rewrite Hl, Hi.
    rewrite (visit_unfold run events id t Hid).
    cbn [map] in *. rewrite deliveries_split in Hq.
    destruct (deliveries_single events (io.deref id t)) as [He|[[c a] He]];
      rewrite He in Hq |- *.
    + destruct (IH (S i) t fuel Hl Hd') as (t' & Hrun & Hs' & Ho' & Hl' & Hinv);
        [lia | exact Hrest | exact Hq |].
      exists t'. split; [exact Hrun|]. split; [exact Hs'|].
      split; [exact Ho'|]. split; [exact Hl'|].
      by rewrite Hinv, deliveries_split, He.
    + destruct (Hq c a (or_introl eq_refl) (io.record c a t))
        as (t1 & Hcall & Hext & Hself).
      rewrite Hcall.
      assert (Ho1 : objects (ext t1) = objects (ext t))
        by (by rewrite Hext).
      assert (Hs1 : self_id (bw t1) = self_id (bw t))
        by (by rewrite Hself).
      assert (Hmap : map (fun id => io.deref id t1) rest
                     = map (fun id => io.deref id t) rest)
        by (apply map_ext; intros j; unfold io.deref; by rewrite Ho1).
      destruct (IH (S i) t1 fuel) as (t' & Hrun & Hs' & Ho' & Hl' & Hinv).
      * by rewrite Hext.
      * exact Hd'.
      * lia.
      * eapply Forall_impl; [exact Hrest|]. intros j Hj.
        by apply (sub_watcher_ok_frame t t1 j Ho1 Hs1).
      * intros c' a' Hin. apply Hq. right. by rewrite <- Hmap.
      * exists t'. split; [exact Hrun|].
        split; [congruence|]. split; [congruence|]. split; [exact Hl'|].
        rewrite Hinv, Hmap, Hext, deliveries_split, He. cbn.
        by rewrite <- app_assoc.
Qed.


Lemma in_deliveries (events : Z) (ws : list multiplexwatcher)
    (ca : cb * list pyval) :
  In ca (deliveries events ws)
  <-> exists w, In w ws /\ started w = true /\ wants events w = true
                /\ invocation events w = Some ca.
Proof.
  unfold deliveries. rewrite <- list_elem_of_In, list_elem_of_omap. split.
  - intros (w & Hin & Hinv). apply list_elem_of_In, List.filter_In in Hin.
    destruct Hin as [Hin Hsel]. apply andb_true_iff in Hsel.
    exists w. tauto.
  - intros (w & Hin & Hst & Hwant & Hinv). exists w. split; [|exact Hinv].
    apply list_elem_of_In, List.filter_In. by rewrite Hst, Hwant.
Qed.

Lemma wants_iff (events : Z) (w : multiplexwatcher) :
  wants events w = true <-> Z.land events (mw_events w) <> 0 \/ events < 0.
Proof.
  unfold wants. rewrite orb_true_iff, negb_true_iff, Z.eqb_neq, Z.ltb_lt.
  tauto.
Qed.






(** ** Closing the last sub-watcher *)

Lemma list_remove_single (id : nat) : list_remove id [id] = Some [].
Proof. simpl. by destruct (decide (id = id)). Qed.

Lemma watcher_ffi_close_closes (p : ptr) (w : world) :
  live p w ->
  let w' := watcher._watcher_ffi_close p w in
  uv_calls w' = uv_calls w ++ [(F_close, [PCData p])]
  /\ h_closing (mem p w') = true
  /\ h_active (mem p w') = false
  /\ p ∈ _closing_handles w'
  /\ uv_aborted w' = uv_aborted w.
Proof.
  intros [Ht Hc] w'. subst w'.
  rewrite (watcher_ffi_close_live p w Ht Hc).
  rewrite (uv_close_live p (set_closing_handles ({[p]} ∪ _closing_handles w) w)
             Ht Hc).
  rewrite !mem_set_mem_eq. simpl. repeat split. set_solver.
Qed.

(** C2.  When [close()] of a sub-watcher removes the last entry of
    [_multiplex_watchers], the io watcher's [stop()] and [close()] run to
    completion inside that call: the state the call returns is the state
    [close()] returned, with the list attribute deleted and the
    sub-watcher's owner link cleared.  Nothing is left for a later pass;
    in particular, where [close()] has passed the live handle to
    [_watcher_ffi_close], [uv_close] is the last native call made when the
    call returns, and the handle is closing, stopped and held in
    [_closing_handles]. *)
Theorem closing_last_multiplex_closes_now `{B : Base io_ext}
    (s s1 s2 : obj io_ext) (id : nat) (rest : list nat) :
  _watcher_ref (io.deref id s) = Some (self_id (bw s)) ->
  _multiplex_watchers (ext s) = Some [id] ->
  inherited.stop (io.set_multiplex_watchers (Some []) s) = Ok tt s1 ->
  inherited.close s1 = Ok tt s2 ->
  _multiplex_watchers (ext s2) = Some rest ->
  let s3 := forget_owner id (io.set_multiplex_watchers None s2) in
  io._multiplexwatcher.close id s = Ok tt s3
  /\ env s3 = env s2
  /\ bw s3 = bw s2
  /\ _multiplex_watchers (ext s3) = None
  /\ _watcher_ref (io.deref id s3) = None
  /\ forall p : ptr,
       live p (env s1) ->
       env s2 = watcher._watcher_ffi_close p (env s1) ->
       uv_calls (env s3) = uv_calls (env s1) ++ [(F_close, [PCData p])]
       /\ h_closing (mem p (env s3)) = true
       /\ h_active (mem p (env s3)) = false
       /\ p ∈ _closing_handles (env s3).
Proof.
  intros Href Hlist Hstop Hclose Hdel s3.
  assert (Hrun : io._multiplexwatcher.close id s = Ok tt s3).
  { unfold io._multiplexwatcher.close, io._multiplexwatcher.on_owner.
    unfold bind at 1. unfold bind at 1. unfold get at 1.
    rewrite Href. rewrite bool_decide_true by done.
    unfold io._multiplex_closed. unfold bind at 1, get at 1.
    rewrite Hlist, list_remove_single.
    unfold bind at 1, modify at 1. unfold bind at 1. rewrite Hstop.
    unfold bind at 1, io._no_more_watchers, ret at 1.
    unfold io.close. unfold bind at 1. rewrite Hclose.
    unfold bind at 1, get at 1. rewrite Hdel. reflexivity. }
  split; [exact Hrun|]. split; [reflexivity|]. split; [reflexivity|].
  split; [reflexivity|]. split.
  - subst s3. unfold forget_owner, io.deref, io.set_object. simpl.
    by rewrite lookup_insert_eq.
  - intros p Hlive Henv.
    destruct (watcher_ffi_close_closes p (env s1) Hlive) as (Hc & Hcl & Hact & Hin & _).
    change (env s3) with (env s2). rewrite Henv. by repeat split.
Qed.

Example closing_last_multiplex_closes_now_witness :
  exists s3 : obj io_ext,
    io._multiplexwatcher.close (B := io_base) 0 fd7_last_reader = Ok tt s3
    /\ uv_calls (env s3) = [(F_poll_stop, [PCData 1]); (F_close, [PCData 1])]
    /\ h_closing (mem 1 (env s3)) = true
    /\ h_active (mem 1 (env s3)) = false
    /\ 1%nat ∈ _closing_handles (env s3)
    /\ lifecycle_state (bw s3) = Closed
    /\ _multiplex_watchers (ext s3) = None.
Proof.
  set (s1 := final_state
               (inherited.stop (Base := io_base)
                  (io.set_multiplex_watchers (Some []) fd7_last_reader))).
  set (s2 := final_state (inherited.close (Base := io_base) s1)).
  destruct (closing_last_multiplex_closes_now (B := io_base)
              fd7_last_reader s1 s2 0 []
              eq_refl eq_refl eq_refl eq_refl eq_refl)
    as (Hrun & _ & _ & Hdel & _ & Hnative).
  destruct (Hnative 1%nat) as (Hcalls & Hclosing & Hact & Hin);
    [split; [vm_compute; discriminate | reflexivity] | reflexivity |].
  eexists. split; [exact Hrun|].
  split; [exact Hcalls|]. split; [exact Hclosing|]. split; [exact Hact|].
  split; [exact Hin|]. split; [reflexivity | exact Hdel].
Defined.

(** ** Constructing a simulated watcher *)

(** C10.  [_SimulatedWithAsyncMixin.__init__] first obtains the async
    watcher from the loop and stores it.  If the rest of the initialisation
    returns, so does [__init__].  If it raises, the async watcher's
    [close()] is run before the exception leaves [__init__], and the same
    exception is then raised from the state [close()] returned: where
    [close()] has passed the live wakeup handle to [_watcher_ffi_close],
    that handle is closing and held in [_closing_handles], with [uv_close]
    the last native call, so no open wakeup handle is left behind. *)
Theorem failed_init_closes_async `{BA : Base unit}
    (loop_async_ : M world base_fields) (super_init : M (obj sim_ext) unit)
    (s : obj sim_ext) (a : base_fields) (w1 : world) :
  loop_async_ (env s) = Ok a w1 ->
  let s1 := _SimulatedWithAsyncMixin.set_async (Some a) (set_env w1 s) in
  (forall s2 : obj sim_ext,
     super_init s1 = Ok tt s2 ->
     _SimulatedWithAsyncMixin.__init__ loop_async_ super_init s = Ok tt s2)
  /\ (forall (e : exn) (s2 : obj sim_ext) (a2 : base_fields) (t3 : obj unit),
       super_init s1 = Raise e s2 ->
       _async (ext s2) = Some a2 ->
       inherited.close (Obj a2 tt (env s2)) = Ok tt t3 ->
       _SimulatedWithAsyncMixin.__init__ loop_async_ super_init s
       = Raise e (_SimulatedWithAsyncMixin.put_async t3 s2)
       /\ env (_SimulatedWithAsyncMixin.put_async t3 s2) = env t3
       /\ forall (p : ptr) (w : world),
            live p w ->
            env t3 = watcher._watcher_ffi_close p w ->
            uv_calls (env t3) = uv_calls w ++ [(F_close, [PCData p])]
            /\ h_closing (mem p (env t3)) = true
            /\ p ∈ _closing_handles (env t3)).
Proof.
  intros Hasync s1.
  assert (Hhead : forall k : M (obj sim_ext) unit,
             (a0 <- in_env loop_async_ ;;
              modify (_SimulatedWithAsyncMixin.set_async (Some a0)) ;;; k) s
             = k s1).
  { intros k. unfold bind, in_env, zoom, modify. by rewrite Hasync. }
  split.
  - intros s2 Hsuper. unfold _SimulatedWithAsyncMixin.__init__.
    rewrite Hhead. unfold try_except. by rewrite Hsuper.
  - intros e s2 a2 t3 Hsuper Ha2 Hclose. split; [|split].
    + unfold _SimulatedWithAsyncMixin.__init__.
      rewrite Hhead. unfold try_except. rewrite Hsuper.
      unfold bind, _SimulatedWithAsyncMixin.on_async. rewrite Ha2, Hclose.
      reflexivity.
    + reflexivity.
    + intros p w Hlive Henv.
      destruct (watcher_ffi_close_closes p w Hlive) as (Hc & Hcl & _ & Hin & _).
      rewrite Henv. by repeat split.
Qed.

Example failed_init_closes_async_witness :
  let run := _SimulatedWithAsyncMixin.__init__ (BA := async_base)
               loop_async_with_handle super_init_refuses blank_sim in
  (exists s3 : obj sim_ext, run = Raise TypeError s3)
  /\ uv_calls (env (final_state run))
     = [(F_async_init, [PCData 0; PCData 1; PNone]); (F_close, [PCData 1])]
  /\ h_closing (mem 1 (env (final_state run))) = true
  /\ bool_decide (1%nat ∈ _closing_handles (env (final_state run))) = true.
Proof.
  intros run.
  set (w1 := final_state (loop_async_with_handle (env blank_sim))).
  set (s2 := _SimulatedWithAsyncMixin.set_async (Some (stopped_base 2 1))
               (set_env w1 blank_sim)).
  set (t3 := final_state
               (inherited.close (Base := async_base)
                  (Obj (stopped_base 2 1) tt (env s2)))).
  assert (H1 : loop_async_with_handle (env blank_sim)
               = Ok (stopped_base 2 1) w1) by (vm_compute; reflexivity).
  assert (H3 : inherited.close (Base := async_base)
                 (Obj (stopped_base 2 1) tt (env s2)) = Ok tt t3)
    by (vm_compute; reflexivity).
  destruct (failed_init_closes_async (BA := async_base)
              loop_async_with_handle super_init_refuses blank_sim
              (stopped_base 2 1) w1 H1) as (_ & Hfail).
  destruct (Hfail TypeError s2 (stopped_base 2 1) t3 eq_refl eq_refl H3)
    as (Hrun & _ & _).
  split; [eexists; exact Hrun|].
  split; [vm_compute; reflexivity|].
  split; vm_compute; reflexivity.
Defined.

(** ** The armed mask under multiplex and close *)

Lemma handle_mask_frame (s s' : obj io_ext) :
  bw s' = bw s -> env s' = env s -> handle_mask s' = handle_mask s.
Proof. intros Hb He. unfold handle_mask. by rewrite Hb, He. Qed.

Lemma active_frame `{B : Base io_ext} (s s' : obj io_ext) :
  active_reads_handle ->
  bw s' = bw s -> env s' = env s ->
  inherited.active s' = inherited.active s.
Proof. intros Hact Hb He. apply Hact; [exact Hb|]. intros p _. by rewrite He. Qed.

Lemma coherent_frame `{B : Base io_ext} (s s' : obj io_ext) :
  active_reads_handle ->
  bw s' = bw s -> env s' = env s -> _events (ext s') = _events (ext s) ->
  coherent s -> coherent s'.
Proof.
  intros Hact Hb He Hev [Hiff Hm]. unfold coherent.
  rewrite (handle_mask_frame s s' Hb He), (active_frame s s' Hact Hb He), Hev.
  by split.
Qed.

Lemma union_of_masks_ext (s s' : obj io_ext) (ids : list nat) :
  (forall id, mw_events (io.deref id s') = mw_events (io.deref id s)) ->
  union_of_masks s' ids = union_of_masks s ids.
Proof.
  intros Hev. unfold union_of_masks. generalize 0.
  induction ids as [|id ids IH]; intros acc; [reflexivity|].
  simpl. rewrite Hev. apply IH.
Qed.

Lemma set_events_keeps `{B : Base io_ext} (events : Z) (s s' : obj io_ext) :
  active_reads_handle ->
  coherent s ->
  io._set_events events s = Ok tt s' ->
  _events (ext s') = events
  /\ bw s' = bw s
  /\ objects (ext s') = objects (ext s)
  /\ _multiplex_watchers (ext s') = _multiplex_watchers (ext s)
  /\ coherent s'.
Proof.
  intros Hact Hco Hrun. unfold io._set_events in Hrun.
  unfold bind at 1, get at 1 in Hrun.
  destruct (events =? _events (ext s)) eqn:Heq.
  { injection Hrun as <-. apply Z.eqb_eq in Heq.
    split; [by symmetry|]. split; [reflexivity|]. split; [reflexivity|].
    split; [reflexivity | exact Hco]. }
  unfold bind at 1, modify at 1 in Hrun. unfold bind at 1, get at 1 in Hrun.
  set (s1 := io.set_events events s) in *.
  assert (Ha1 : inherited.active s1 = inherited.active s)
    by (by apply active_frame).
  assert (Hm1 : handle_mask s1 = handle_mask s)
    by (by apply handle_mask_frame).
  destruct Hco as [Hiff Hm].
  destruct (inherited.active s1) eqn:Ha.
  - destruct (_handle (bw s1)); [|discriminate Hrun].
    unfold bind, in_env, zoom, _LIB in Hrun. rewrite wrap_unfold in Hrun.
    unfold native_args, isinstance_watcher, watcher_arg in Hrun.
    change (bw s1) with (bw s) in Hrun.
    destruct (_watcher (bw s)) as [p|] eqn:Hw; [|discriminate Hrun].
    change (_events (ext s1)) with events in Hrun.
    cbv beta iota zeta delta [libuv fallible _watcher_callback] in Hrun.
    change (PCallback 0) with _watcher_callback in Hrun.
    destruct (uv_rc (sys (env s1)) F_poll_start
                [PCData p; PInt events; _watcher_callback] <? 0);
      [discriminate Hrun|].
    unfold ret in Hrun. injection Hrun as <-.
    assert (Hp : h_active (mem p (env s)) = true).
    { assert (Hne : handle_mask s <> None) by (apply Hiff; congruence).
      unfold handle_mask, armed_mask in Hne. rewrite Hw in Hne.
      by destruct (h_active (mem p (env s))). }
    match goal with |- context [coherent ?x] => set (s2 := x) end.
    assert (Hmask : handle_mask s2 = Some events).
    { unfold handle_mask, armed_mask. subst s2. cbn [bw set_env env].
      change (bw s1) with (bw s). rewrite Hw, mem_set_mem_eq. reflexivity. }
    assert (Ha2 : inherited.active s2 = true).
    { rewrite <- Ha. apply Hact; [reflexivity|].
      intros q Hq. change (bw s1) with (bw s) in Hq. rewrite Hw in Hq.
      injection Hq as <-. subst s2. cbn [env set_env]. rewrite mem_set_mem_eq.
      cbn. by rewrite Hp. }
    split; [reflexivity|]. split; [reflexivity|]. split; [reflexivity|].
    split; [reflexivity|]. unfold coherent. rewrite Hmask, Ha2. split.
    + split; [discriminate | reflexivity].
    + intros m [= <-]. reflexivity.
  - unfold ret in Hrun. injection Hrun as <-.
    split; [reflexivity|]. split; [reflexivity|]. split; [reflexivity|].
    split; [reflexivity|].
    assert (Hnone : handle_mask s = None).
    { destruct (handle_mask s) eqn:Hh; [|reflexivity].
      assert (inherited.active s = true) by (apply Hiff; discriminate).
      congruence. }
    unfold coherent. rewrite Ha, Hm1, Hnone. split; [|discriminate].
    split; [discriminate | intros Hc; by contradiction Hc].
Qed.

Lemma calc_keeps `{B : Base io_ext} (s s' : obj io_ext) :
  active_reads_handle ->
  coherent s ->
  io._calc_and_update_events s = Ok tt s' ->
  _events (ext s') = union_of_masks s (io.watchers s)
  /\ bw s' = bw s
  /\ objects (ext s') = objects (ext s)
  /\ _multiplex_watchers (ext s') = _multiplex_watchers (ext s)
  /\ coherent s'.
Proof.
  intros Hact Hco Hrun. unfold io._calc_and_update_events in Hrun.
  unfold bind, get in Hrun.
  exact (set_events_keeps _ s s' Hact Hco Hrun).
Qed.

Lemma deref_objects (s s' : obj io_ext) (id : nat) :
  objects (ext s') = objects (ext s) -> io.deref id s' = io.deref id s.
Proof. intros Ho. unfold io.deref. by rewrite Ho. Qed.

Lemma forget_owner_events (s : obj io_ext) (id i : nat) :
  mw_events (io.deref i (forget_owner id s)) = mw_events (io.deref i s).
Proof.
  unfold forget_owner, io.deref, io.set_object. cbn [ext set_ext objects].
  destruct (decide (i = id)) as [->|Hne].
  - by rewrite lookup_insert_eq.
  - by rewrite lookup_insert_ne.
Qed.

Lemma mask_invariant_forget_owner `{B : Base io_ext} (s : obj io_ext)
    (id : nat) :
  active_reads_handle ->
  mask_invariant s -> mask_invariant (forget_owner id s).
Proof.
  intros Hact Hinv. unfold mask_invariant in *.
  change (_multiplex_watchers (ext (forget_owner id s)))
    with (_multiplex_watchers (ext s)).
  destruct (_multiplex_watchers (ext s)) as [l|]; [|exact I].
  destruct Hinv as [Hco Hun]. split.
  - by apply (coherent_frame s).
  - intros Hne. change (_events (ext (forget_owner id s))) with (_events (ext s)).
    rewrite (Hun Hne). symmetry. apply union_of_masks_ext.
    intros i. apply forget_owner_events.
Qed.

Lemma io_close_drops_list `{B : Base io_ext} (s s' : obj io_ext) :
  io.close s = Ok tt s' -> _multiplex_watchers (ext s') = None.
Proof.
  unfold io.close, bind, get. destruct (inherited.close s) as [[] s1|e s1];
    [|discriminate].
  destruct (_multiplex_watchers (ext s1)); [|discriminate].
  unfold modify. by intros [= <-].
Qed.

Lemma multiplex_keeps `{B : Base io_ext} (events : Z) (s s' : obj io_ext)
    (id : nat) :
  active_reads_handle ->
  mask_invariant s ->
  io.multiplex events s = Ok id s' ->
  mask_invariant s'.
Proof.
  intros Hact Hinv Hrun. unfold io.multiplex in Hrun.
  unfold bind at 1, get at 1 in Hrun.
  unfold bind at 1, modify at 1 in Hrun.
  unfold mask_invariant in Hinv.
  destruct (_multiplex_watchers (ext s)) as [l|] eqn:Hl; [|discriminate Hrun].
  destruct Hinv as [Hco _].
  unfold bind at 1, modify at 1 in Hrun. unfold bind at 1 in Hrun.
  match type of Hrun with
  | context [io._calc_and_update_events ?x] => set (s1 := x) in *
  end.
  destruct (io._calc_and_update_events s1) as [[] s2|e s2] eqn:Hcalc;
    [|discriminate Hrun].
  unfold ret in Hrun. injection Hrun as _ <-.
  assert (Hco1 : coherent s1) by (by apply (coherent_frame s)).
  destruct (calc_keeps s1 s2 Hact Hco1 Hcalc) as (Hev & Hb & Ho & Hm & Hco2).
  unfold mask_invariant. rewrite Hm.
  change (_multiplex_watchers (ext s1)) with (Some (l ++ [next_id (ext s)])).
  split; [exact Hco2|]. intros _. rewrite Hev.
  change (io.watchers s1) with (l ++ [next_id (ext s)]).
  symmetry. apply union_of_masks_ext. intros i. by rewrite (deref_objects s1 s2).
Qed.

Lemma close_sub_keeps `{B : Base io_ext} (id : nat) (s s' : obj io_ext) :
  active_reads_handle ->
  mask_invariant s ->
  io._multiplexwatcher.close id s = Ok tt s' ->
  mask_invariant s'.
Proof.
  intros Hact Hinv Hrun. unfold io._multiplexwatcher.close in Hrun.
  unfold bind at 1 in Hrun.
  destruct (io._multiplexwatcher.on_owner id (io._multiplex_closed id) s)
    as [[] s2|e s2] eqn:Hown; [|discriminate Hrun].
  unfold modify in Hrun. injection Hrun as <-.
  apply (mask_invariant_forget_owner s2 id Hact).
  unfold io._multiplexwatcher.on_owner in Hown.
  unfold bind at 1, get at 1 in Hown.
  destruct (_watcher_ref (io.deref id s)) as [o|].
  2:{ unfold ret in Hown. by injection Hown as <-. }
  destruct (bool_decide (o = self_id (bw s))); [|discriminate Hown].
  unfold io._multiplex_closed in Hown. unfold bind at 1, get at 1 in Hown.
  unfold mask_invariant in Hinv.
  destruct (_multiplex_watchers (ext s)) as [l|] eqn:Hl; [|discriminate Hown].
  destruct Hinv as [Hco _].
  destruct (list_remove id l) as [l'|]; [|discriminate Hown].
  unfold bind at 1, modify at 1 in Hown.
  destruct l' as [|x l'].
  - unfold bind at 1 in Hown.
    destruct (inherited.stop _) as [[] s3|e s3]; [|discriminate Hown].
    unfold bind at 1, io._no_more_watchers, ret at 1 in Hown.
    unfold mask_invariant. by rewrite (io_close_drops_list s3 s2 Hown).
  - match type of Hown with
    | io._calc_and_update_events ?x = _ => set (s1 := x) in *
    end.
    assert (Hco1 : coherent s1) by (by apply (coherent_frame s)).
    destruct (calc_keeps s1 s2 Hact Hco1 Hown) as (Hev & Hb & Ho & Hm & Hco2).
    unfold mask_invariant. rewrite Hm.
    change (_multiplex_watchers (ext s1)) with (Some (x :: l')).
    split; [exact Hco2|]. intros _. rewrite Hev.
    change (io.watchers s1) with (x :: l').
    symmetry. apply union_of_masks_ext. intros i. by rewrite (deref_objects s1 s2).
Qed.

Lemma mutate_all_keeps `{B : Base io_ext} (ms : list mutation) :
  active_reads_handle ->
  forall s s' : obj io_ext,
    mask_invariant s -> mutate_all ms s = Ok tt s' -> mask_invariant s'.
Proof.
  intros Hact. induction ms as [|m ms IH]; intros s s' Hinv Hrun.
  - unfold mutate_all, ret in Hrun. by injection Hrun as <-.
  - cbn [mutate_all] in Hrun. unfold bind at 1 in Hrun.
    destruct (mutate m s) as [[] s1|e s1] eqn:Hm; [|discriminate Hrun].
    apply (IH s1 s'); [|exact Hrun].
    destruct m as [events|id]; cbn [mutate] in Hm.
    + unfold bind in Hm.
      destruct (io.multiplex events s) as [id s2|e s2] eqn:Hmx; [|discriminate Hm].
      unfold ret in Hm. injection Hm as <-.
      exact (multiplex_keeps events s s2 id Hact Hinv Hmx).
    + exact (close_sub_keeps id s s1 Hact Hinv Hm).
Qed.

(** C1, as the code has it.  Take an io watcher that is coherent (it
    reports itself active exactly while its handle polls, and the handle
    then polls for the stored mask) and whose stored mask is the union of
    its sub-watchers' masks if it has any.  After every sequence of
    [multiplex()] and sub-watcher [close()] calls that return, as long as a
    sub-watcher remains registered, the stored mask is the bitwise union of
    the masks of all registered sub-watchers, started or not, and a handle
    that is polling is armed with exactly that union.  Once the last
    sub-watcher is closed the io watcher closes down and has no list. *)
Theorem armed_mask_is_union_of_registered `{B : Base io_ext}
    (ms : list mutation) (s s' : obj io_ext) :
  active_reads_handle ->
  mask_invariant s ->
  mutate_all ms s = Ok tt s' ->
  mask_invariant s'
  /\ forall l : list nat,
       _multiplex_watchers (ext s') = Some l -> l <> [] ->
       _events (ext s') = union_of_masks s' l
       /\ forall m : Z, handle_mask s' = Some m -> m = union_of_masks s' l.
Proof.
  intros Hact Hinv Hrun.
  pose proof (mutate_all_keeps ms Hact s s' Hinv Hrun) as Hinv'.
  split; [exact Hinv'|]. intros l Hl Hne.
  unfold mask_invariant in Hinv'. rewrite Hl in Hinv'.
  destruct Hinv' as [[_ Hm] Hun]. split; [by apply Hun|].
  intros m Hmask. rewrite <- (Hun Hne). by apply Hm.
Qed.

Lemma io_base_active_reads_handle : active_reads_handle (B := io_base).
Proof. intros s s' Hb _. cbn. unfold spec_base.active. by rewrite Hb. Qed.

Lemma fd7_reading_invariant : mask_invariant (B := io_base) fd7_reading.
Proof.
  unfold mask_invariant.
  change (_multiplex_watchers (ext fd7_reading)) with (Some [0%nat]).
  split; [split|].
  - split.
    + intros _ H. vm_compute in H. discriminate H.
    + intros _. vm_compute. reflexivity.
  - intros m Hm. vm_compute in Hm. injection Hm as <-. vm_compute. reflexivity.
  - intros _. vm_compute. reflexivity.
Qed.

Example armed_mask_is_union_of_registered_witness :
  let run := mutate_all (B := io_base)
               [Multiplex UV_WRITABLE; Multiplex UV_DISCONNECT; CloseSub 0]
               fd7_reading in
  (exists s' : obj io_ext,
     run = Ok tt s'
     /\ _events (ext s') = union_of_masks s' [1; 2]%nat
     /\ forall m : Z, handle_mask s' = Some m -> m = union_of_masks s' [1; 2]%nat)
  /\ _multiplex_watchers (ext (final_state run)) = Some [1; 2]%nat
  /\ handle_mask (final_state run) = Some 6
  /\ union_of_masks (final_state run) [1; 2]%nat = 6.
Proof.
  intros run.
  assert (Hrun : run = Ok tt (final_state run)) by (vm_compute; reflexivity).
  destruct (armed_mask_is_union_of_registered (B := io_base)
              [Multiplex UV_WRITABLE; Multiplex UV_DISCONNECT; CloseSub 0]
              fd7_reading (final_state run)
              io_base_active_reads_handle fd7_reading_invariant Hrun)
    as (_ & Hmask).
  assert (Hl : _multiplex_watchers (ext (final_state run)) = Some [1; 2]%nat)
    by (vm_compute; reflexivity).
  destruct (Hmask [1; 2]%nat Hl ltac:(discriminate)) as (Hev & Harmed).
  split; [exists (final_state run); split; [exact Hrun|]; split;
          [exact Hev | exact Harmed]|].
  split; [exact Hl|]. split; vm_compute; reflexivity.
Defined.

(** C1 as the spec words it fails as soon as a sub-watcher is registered
    but not started: after [multiplex(READ)], the start of that
    sub-watcher and [multiplex(WRITE)], the handle is armed with
    READ|WRITE = 3, while the union over the started sub-watchers is
    READ = 1. *)
Example armed_mask_counts_unstarted_counterexample :
  let after := final_state (io.multiplex (B := io_base) UV_WRITABLE fd7_reading) in
  is_ok (io.multiplex (B := io_base) UV_WRITABLE fd7_reading) = true
  /\ handle_mask after = Some 3
  /\ union_of_active_masks after = 1
  /\ ~ armed_with_union_of_active after.
Proof.
  intros after.
  split; [vm_compute; reflexivity|]. split; [vm_compute; reflexivity|].
  split; [vm_compute; reflexivity|].
  unfold armed_with_union_of_active. intros H. vm_compute in H. discriminate H.
Qed.

(** * Further properties of the code *)

(** ** Handles in the closing set *)

Lemma mem_uv_close_other (p q : ptr) (w : world) :
  q <> p -> mem q (uv_close p w) = mem q w.
Proof.
  intros Hne. unfold uv_close.
  destruct (negb (h_type (mem p w) =? 0) && negb (h_closing (mem p w))).
  - rewrite mem_set_mem. by destruct (decide (q = p)).
  - reflexivity.
Qed.

(** X1.  [_watcher_ffi_close] on one handle never touches the memory of
    another handle, never takes a handle out of [_closing_handles], and
    leaves the loop clock and the warnings alone. *)
Theorem watcher_ffi_close_leaves_others (p : ptr) (w : world) :
  (forall q : ptr, q <> p ->
     mem q (watcher._watcher_ffi_close p w) = mem q w)
  /\ _closing_handles w ⊆ _closing_handles (watcher._watcher_ffi_close p w)
  /\ uv_now (watcher._watcher_ffi_close p w) = uv_now w
  /\ warnings (watcher._watcher_ffi_close p w) = warnings w.
Proof.
  assert (Hskip : watcher._watcher_ffi_close p w = set_mem p (with_data None) w ->
          (forall q : ptr, q <> p ->
             mem q (watcher._watcher_ffi_close p w) = mem q w)
          /\ _closing_handles w ⊆ _closing_handles (watcher._watcher_ffi_close p w)
          /\ uv_now (watcher._watcher_ffi_close p w) = uv_now w
          /\ warnings (watcher._watcher_ffi_close p w) = warnings w).
  { intros ->. split; [|by repeat split].
    intros q Hne. rewrite mem_set_mem. by destruct (decide (q = p)). }
  destruct (Z.eq_dec (h_type (mem p w)) 0) as [Hz|Hnz].
  { apply Hskip, watcher_ffi_close_skips. by left. }
  destruct (h_closing (mem p w)) eqn:Hc.
  { apply Hskip, watcher_ffi_close_skips. by right. }
  rewrite (watcher_ffi_close_live p w Hnz Hc).
  rewrite (uv_close_live p (set_closing_handles ({[p]} ∪ _closing_handles w) w)
             Hnz Hc).
  split; [|split; [|split]]; try reflexivity.
  - intros q Hne. rewrite !mem_set_mem. by destruct (decide (q = p)).
  - cbn. apply union_subseteq_r.
Qed.

(** X2.  A handle that is live and not yet in [_closing_handles]: after
    [_watcher_ffi_close], the loop's acknowledgement [_uv_close_callback]
    returns normally and puts [_closing_handles] back as it was; the handle
    stays closing, so a later [_watcher_ffi_close] makes no further native
    call.  An acknowledgement for a handle that is not in the set raises
    [KeyError] and changes nothing. *)
Theorem close_then_acknowledge (p : ptr) (w : world) :
  (live p w -> p ∉ _closing_handles w ->
   exists w' : world,
     _uv_close_callback p (watcher._watcher_ffi_close p w) = Ok tt w'
     /\ _closing_handles w' = _closing_handles w
     /\ h_closing (mem p w') = true
     /\ uv_calls w' = uv_calls w ++ [(F_close, [PCData p])]
     /\ uv_calls (watcher._watcher_ffi_close p w') = uv_calls w')
  /\ (p ∉ _closing_handles w -> _uv_close_callback p w = Raise KeyError w).
Proof.
  split.
  - intros [Ht Hc] Hnotin.
    set (w1 := watcher._watcher_ffi_close p w).
    assert (Hw1 : w1 = set_mem p (with_data None)
                         (set_mem p (fun h => with_active false (with_closing true h))
                            (log_call F_close [PCData p]
                               (set_closing_handles ({[p]} ∪ _closing_handles w) w)))).
    { subst w1. rewrite (watcher_ffi_close_live p w Ht Hc).
      by rewrite (uv_close_live p
                    (set_closing_handles ({[p]} ∪ _closing_handles w) w) Ht Hc). }
    assert (Hset : _closing_handles w1 = {[p]} ∪ _closing_handles w)
      by (by rewrite Hw1).
    assert (Hcl : h_closing (mem p w1) = true)
      by (rewrite Hw1, !mem_set_mem_eq; reflexivity).
    assert (Hcalls : uv_calls w1 = uv_calls w ++ [(F_close, [PCData p])])
      by (by rewrite Hw1).
    clearbody w1.
    exists (set_closing_handles (_closing_handles w1 ∖ {[p]}) w1).
    split.
    { unfold _uv_close_callback. rewrite bool_decide_true; [reflexivity|].
      rewrite Hset. apply elem_of_union_l, elem_of_singleton. reflexivity. }
    split.
    { cbn [_closing_handles set_closing_handles]. rewrite Hset.
      apply set_eq. intros x.
      rewrite elem_of_difference, elem_of_union, elem_of_singleton.
      split; [tauto|]. intros Hx. split; [by right|]. by intros ->. }
    split; [exact Hcl|]. split; [exact Hcalls|].
    rewrite watcher_ffi_close_skips; [reflexivity|]. by right.
  - intros Hnotin. unfold _uv_close_callback. by rewrite bool_decide_false.
Qed.

Example close_then_acknowledge_witness :
  let w := world1 sys_ok UV_ASYNC true in
  (exists w' : world,
     _uv_close_callback 1 (watcher._watcher_ffi_close 1 w) = Ok tt w'
     /\ _closing_handles w' = _closing_handles w
     /\ h_closing (mem 1 w') = true)
  /\ _uv_close_callback 1 w = Raise KeyError w.
Proof.
  intros w.
  assert (Hlive : live 1%nat w)
    by (split; [vm_compute; discriminate | vm_compute; reflexivity]).
  assert (Hnotin : 1%nat ∉ _closing_handles w) by apply not_elem_of_empty.
  destruct (close_then_acknowledge 1 w) as [Hack Hmiss].
  destruct (Hack Hlive Hnotin) as (w' & Hrun & Hset & Hcl & _).
  split; [|exact (Hmiss Hnotin)].
  exists w'. split; [exact Hrun|]. split; [exact Hset | exact Hcl].
Defined.

(** ** The async watcher after its handle is closed *)

(** X3.  Once the live handle of an async watcher has been through
    [_watcher_ffi_close], [send()] raises and makes no native call: the only
    native call on record is the [uv_close]. *)
Theorem send_after_close_raises (s : obj unit) (p : ptr) :
  _watcher (bw s) = Some p ->
  live p (env s) ->
  let s' := set_env (watcher._watcher_ffi_close p (env s)) s in
  async_.send s' = Raise (Exception_ "Closing handle") s'
  /\ count_calls F_async_send p (env s') = count_calls F_async_send p (env s).
Proof.
  intros Hw Hlive s'.
  destruct (watcher_ffi_close_closes p (env s) Hlive) as (Hc & Hcl & _).
  split.
  - unfold async_.send. subst s'. cbn [bw env set_env]. rewrite Hw.
    unfold uv_is_closing. by rewrite Hcl.
  - subst s'. cbn [env set_env]. unfold count_calls. rewrite Hc.
    rewrite List.filter_app, length_app. cbn.
    rewrite bool_decide_false by discriminate. cbn. lia.
Qed.

Example send_after_close_raises_witness :
  let s := Obj (stopped_base 2 1) tt (world1 sys_ok UV_ASYNC true) in
  let s' := set_env (watcher._watcher_ffi_close 1 (env s)) s in
  async_.send s' = Raise (Exception_ "Closing handle") s'.
Proof.
  intros s s'.
  assert (Hlive : live 1%nat (env s))
    by (split; [vm_compute; discriminate | vm_compute; reflexivity]).
  exact (proj1 (send_after_close_raises s 1 eq_refl Hlive)).
Defined.

(** ** The timer's arming step and its durations *)

(** X4.  When [uv_timer_start] itself fails, the [UVFuncallError] the
    wrapper raises is a [ValueError], so the [except ValueError] around the
    call turns it into a bare [TypeError]; the call is on record and the
    handle is not armed. *)
Theorem timer_start_failure_is_TypeError (s : obj timer_ext) (p : ptr)
    (az rz : Z) :
  _watcher (bw s) = Some p ->
  _again (ext s) = false ->
  int_of_float (_after (ext s) * 1000) = inr az ->
  int_of_float (_repeat (ext s) * 1000) = inr rz ->
  fits_uint64 az = true -> fits_uint64 rz = true ->
  uv_rc (sys (env s)) F_timer_start
    [PCData p; _watcher_callback; PInt az; PInt rz] < 0 ->
  timer._watcher_ffi_start s
  = Raise TypeError
      (set_env (log_call F_timer_start
                  [PCData p; _watcher_callback; PInt az; PInt rz] (env s)) s)
  /\ mem p (env (final_state (timer._watcher_ffi_start s))) = mem p (env s).
Proof.
  intros Hw Hag Ha Hr Hfa Hfr Hrc.
  assert (Hrun : timer._watcher_ffi_start s
                 = Raise TypeError
                     (set_env (log_call F_timer_start
                                 [PCData p; _watcher_callback; PInt az; PInt rz]
                                 (env s)) s)).
  { destruct s as [b x w]. simpl in *.
    unfold timer._watcher_ffi_start, bind, get, try_except, int_, in_env, zoom, _LIB.
    simpl. rewrite Hag, Ha, Hr. simpl.
    rewrite wrap_unfold. unfold watcher_arg. rewrite Hw. simpl.
    rewrite Hfa, Hfr. simpl. unfold fallible. simpl.
    apply Z.ltb_lt in Hrc. rewrite Hrc. reflexivity. }
  split; [exact Hrun|]. rewrite Hrun. reflexivity.
Qed.

(** X5.  A duration that is NaN makes the arming step raise [TypeError],
    and an infinite one makes it raise [OverflowError]; in both cases no
    native call is made and nothing changes. *)
Theorem timer_start_rejects_nan_and_infinity (s : obj timer_ext) :
  _again (ext s) = false ->
  (Prim2SF (_after (ext s) * 1000) = S754_nan ->
     timer._watcher_ffi_start s = Raise TypeError s)
  /\ (forall sgn : bool,
        Prim2SF (_after (ext s) * 1000) = S754_infinity sgn ->
        timer._watcher_ffi_start s = Raise OverflowError s).
Proof.
  intros Hag. split.
  - intros Hnan. unfold timer._watcher_ffi_start, bind, get, try_except, int_.
    rewrite Hag. unfold int_of_float. rewrite Hnan. reflexivity.
  - intros sgn Hinf. unfold timer._watcher_ffi_start, bind, get, try_except, int_.
    rewrite Hag. unfold int_of_float. rewrite Hinf. reflexivity.
Qed.

Lemma below_resolution_negative (x : float) :
  (x <? 0)%float = true -> below_resolution x = true.
Proof.
  unfold below_resolution, float_truth.
  rewrite !FloatAxioms.ltb_spec, FloatAxioms.eqb_spec.
  set (zero := Prim2SF 0). vm_compute in zero. subst zero.
  set (ms := Prim2SF one_ms). vm_compute in ms. subst ms.
  destruct (Prim2SF x) as [sg | sg | | sg m e]; intros H.
  - destruct sg; discriminate H.
  - destruct sg; [reflexivity | discriminate H].
  - discriminate H.
  - destruct sg; [reflexivity | discriminate H].
Qed.

(** X6.  A negative duration counts as below the resolution: initialising
    a timer with a negative [after] stores exactly 0.001 and logs the
    warning, like a small positive one. *)
Theorem timer_init_lifts_negative_after (after repeat : float)
    (s : obj timer_ext) (p : ptr) :
  _watcher (bw s) = Some p ->
  0 <= uv_rc (sys (env s)) F_timer_init [PCData (loop_ptr (bw s)); PCData p] ->
  (after <? 0)%float = true ->
  exists s1 : obj timer_ext,
    timer._watcher_ffi_init (after, repeat) s = Ok tt s1
    /\ _after (ext s1) = one_ms
    /\ In resolution_warning (warnings (env s1)).
Proof.
  intros Hw Hrc Hneg.
  pose proof (below_resolution_negative after Hneg) as Hlow.
  eexists. split; [apply (timer_init_runs after repeat s p Hw Hrc)|].
  cbn [ext env _after]. rewrite Hlow. split; [reflexivity|].
  destruct (below_resolution repeat); cbn [warnings warn];
    rewrite ?in_app_iff; cbn; tauto.
Qed.

(** X7.  [again()] on an active timer never leaves [_again] set: whether
    the inherited [start] returns or raises, the flag is removed before
    [again] is left. *)
Theorem again_clears_flag `{B : Base timer_ext} (s : obj timer_ext)
    (callback : cb) (args : list pyval) (kw : list (string * pyval)) :
  inherited.active s = true ->
  _again (ext (final_state (timer.again callback args kw s))) = false.
Proof.
  intros Ha. unfold timer.again, bind, get, modify. rewrite Ha. cbn [negb].
  unfold try_finally.
  destruct (inherited.start callback args kw (timer.set_again true s));
    reflexivity.
Qed.

(** X8.  If [uv_timer_init] fails, initialisation raises the wrapper's
    [UVFuncallError] before the durations are read: [_after] and [_repeat]
    keep their old values and no warning is logged. *)
Theorem timer_init_failure_stores_nothing (args : float * float)
    (s : obj timer_ext) (p : ptr) :
  _watcher (bw s) = Some p ->
  uv_rc (sys (env s)) F_timer_init [PCData (loop_ptr (bw s)); PCData p] < 0 ->
  exists (msg : string) (s1 : obj timer_ext),
    timer._watcher_ffi_init args s = Raise (UVFuncallError msg) s1
    /\ ext s1 = ext s
    /\ warnings (env s1) = warnings (env s)
    /\ h_type (mem p (env s1)) = h_type (mem p (env s)).
Proof.
  intros Hw Hrc. destruct s as [b x w]. simpl in *.
  unfold timer._watcher_ffi_init, bind, get, in_env, zoom, _LIB. simpl.
  rewrite wrap_unfold. unfold watcher_arg. rewrite Hw. simpl.
  unfold fallible. simpl.
  apply Z.ltb_lt in Hrc. rewrite Hrc. simpl.
  eexists. eexists. split; [reflexivity|]. by repeat split.
Qed.

Example timer_start_failure_is_TypeError_witness :
  let s := armable_timer (sys_failing F_timer_start) 0.5 0 in
  timer._watcher_ffi_start s
  = Raise TypeError
      (set_env (log_call F_timer_start
                  [PCData 1; _watcher_callback; PInt 500; PInt 0] (env s)) s).
Proof.
  intros s.
  assert (Hrc : uv_rc (sys (env s)) F_timer_start
                  [PCData 1; _watcher_callback; PInt 500; PInt 0] < 0)
    by (vm_compute; reflexivity).
  exact (proj1 (timer_start_failure_is_TypeError s 1 500 0
                  eq_refl eq_refl eq_refl eq_refl eq_refl eq_refl Hrc)).
Defined.

Example timer_start_rejects_nan_and_infinity_witness :
  timer._watcher_ffi_start (armable_timer sys_ok nan 0)
  = Raise TypeError (armable_timer sys_ok nan 0)
  /\ timer._watcher_ffi_start (armable_timer sys_ok infinity 0)
     = Raise OverflowError (armable_timer sys_ok infinity 0).
Proof.
  split.
  - exact (proj1 (timer_start_rejects_nan_and_infinity
                    (armable_timer sys_ok nan 0) eq_refl) eq_refl).
  - exact (proj2 (timer_start_rejects_nan_and_infinity
                    (armable_timer sys_ok infinity 0) eq_refl) false eq_refl).
Defined.

Example timer_init_lifts_negative_after_witness :
  exists s1 : obj timer_ext,
    timer._watcher_ffi_init ((-1)%float, 0%float) (allocated_timer_on sys_ok)
    = Ok tt s1
    /\ _after (ext s1) = one_ms
    /\ In resolution_warning (warnings (env s1)).
Proof.
  exact (timer_init_lifts_negative_after (-1) 0 (allocated_timer_on sys_ok) 1
           eq_refl (Z.le_refl 0) eq_refl).
Defined.

Example again_clears_flag_witness :
  _again (ext (final_state
                 (timer.again (B := timer_base (0.5, 0.5)%float) 6 [] []
                    running_timer))) = false.
Proof.
  exact (again_clears_flag (B := timer_base (0.5, 0.5)%float)
           running_timer 6 [] [] eq_refl).
Defined.

Example timer_init_failure_stores_nothing_witness :
  exists (msg : string) (s1 : obj timer_ext),
    timer._watcher_ffi_init (half_ms, 0%float)
      (allocated_timer_on (sys_failing F_timer_init))
    = Raise (UVFuncallError msg) s1
    /\ ext s1 = ext (allocated_timer_on (sys_failing F_timer_init))
    /\ warnings (env s1) = []
    /\ h_type (mem 1 (env s1)) = 0.
Proof.
  assert (Hrc : uv_rc (sys (env (allocated_timer_on (sys_failing F_timer_init))))
                  F_timer_init [PCData 0; PCData 1] < 0)
    by (vm_compute; reflexivity).
  destruct (timer_init_failure_stores_nothing (half_ms, 0%float)
              (allocated_timer_on (sys_failing F_timer_init)) 1 eq_refl Hrc)
    as (msg & s1 & Hrun & Hext & Hwarn & Htype).
  exists msg, s1. split; [exact Hrun|]. split; [exact Hext|].
  split; [exact Hwarn | exact Htype].
Defined.

(** ** Sub-watchers: close, stop, start *)

Lemma deref_set_object (s : obj io_ext) (id i : nat) (o : multiplexwatcher) :
  io.deref i (io.set_object id o s)
  = if decide (i = id) then o else io.deref i s.
Proof.
  unfold io.deref, io.set_object. cbn [ext set_ext objects].
  destruct (decide (i = id)) as [->|Hne].
  - by rewrite lookup_insert_eq.
  - by rewrite lookup_insert_ne.
Qed.

Lemma forget_owner_twice (id : nat) (s : obj io_ext) :
  forget_owner id (forget_owner id s) = forget_owner id s.
Proof.
  unfold forget_owner. cbv zeta. rewrite (deref_set_object s id id).
  destruct (decide (id = id)); [|done].
  cbn [mw_events mw_callback mw_args pass_events].
  unfold io.set_object.
  cbn [ext set_ext bw env objects _fd _events _multiplex_watchers next_id
       invoked].
  by rewrite insert_insert_eq.
Qed.

(** X9.  [close()] of a sub-watcher is idempotent: once it has returned,
    the sub-watcher has no owner, its [fd] reads -1, and closing it again
    returns normally without changing anything. *)
Theorem sub_watcher_close_is_idempotent `{B : Base io_ext} (id : nat)
    (s s' : obj io_ext) :
  io._multiplexwatcher.close id s = Ok tt s' ->
  io._multiplexwatcher.close id s' = Ok tt s'
  /\ _watcher_ref (io.deref id s') = None
  /\ io._multiplexwatcher.fd id s' = -1.
Proof.
  intros Hrun. unfold io._multiplexwatcher.close in Hrun.
  unfold bind at 1 in Hrun.
  destruct (io._multiplexwatcher.on_owner id (io._multiplex_closed id) s)
    as [[] s2|e s2]; [|discriminate Hrun].
  assert (Hs' : s' = forget_owner id s2)
    by (unfold modify in Hrun; injection Hrun as <-; reflexivity).
  subst s'. clear Hrun.
  assert (Href : _watcher_ref (io.deref id (forget_owner id s2)) = None).
  { unfold forget_owner. rewrite deref_set_object.
    by destruct (decide (id = id)). }
  split; [|split; [exact Href|]].
  - unfold io._multiplexwatcher.close, io._multiplexwatcher.on_owner.
    unfold bind, get. cbv beta. rewrite Href. unfold ret, modify.
    f_equal. apply forget_owner_twice.
  - unfold io._multiplexwatcher.fd. by rewrite Href.
Qed.

(** X10.  [io.close()] is not idempotent: after a [close()] that returned,
    a second [close()] whose inherited part returns and leaves
    [_multiplex_watchers] alone raises [AttributeError] at the [del]. *)
Theorem io_close_twice_raises `{B : Base io_ext} (s s1 s2 : obj io_ext) :
  io.close s = Ok tt s1 ->
  inherited.close s1 = Ok tt s2 ->
  _multiplex_watchers (ext s2) = _multiplex_watchers (ext s1) ->
  io.close s1 = Raise AttributeError s2.
Proof.
  intros Hfirst Hclose Hsame.
  pose proof (io_close_drops_list s s1 Hfirst) as Hnone.
  unfold io.close, bind, get. rewrite Hclose, Hsame, Hnone. reflexivity.
Qed.

(** X11.  An io watcher that has dropped its list stays that way: no
    [multiplex()] returns on it any more, and whatever sequence of calls
    does return leaves the list dropped. *)
Theorem closed_down_stays_closed_down `{B : Base io_ext}
    (ms : list mutation) :
  forall s s' : obj io_ext,
    _multiplex_watchers (ext s) = None ->
    mutate_all ms s = Ok tt s' ->
    _multiplex_watchers (ext s') = None /\ only_closes ms.
Proof.
  induction ms as [|m ms IH]; intros s s' Hnone Hrun.
  - unfold mutate_all, ret in Hrun. injection Hrun as <-.
    split; [exact Hnone | constructor].
  - cbn [mutate_all] in Hrun. unfold bind at 1 in Hrun.
    destruct (mutate m s) as [[] s1|e s1] eqn:Hm; [|discriminate Hrun].
    destruct m as [events|id]; cbn [mutate] in Hm.
    + exfalso. unfold io.multiplex, bind, get, modify in Hm.
      cbn [ext set_ext io.new_object _multiplex_watchers] in Hm.
      rewrite Hnone in Hm. discriminate Hm.
    + assert (Hn1 : _multiplex_watchers (ext s1) = None).
      { unfold io._multiplexwatcher.close in Hm. unfold bind at 1 in Hm.
        destruct (io._multiplexwatcher.on_owner id (io._multiplex_closed id) s)
          as [[] s2|e s2] eqn:Hown; [|discriminate Hm].
        assert (Hs1 : s1 = forget_owner id s2)
          by (unfold modify in Hm; injection Hm as <-; reflexivity).
        subst s1. clear Hm.
        change (_multiplex_watchers (ext (forget_owner id s2)))
          with (_multiplex_watchers (ext s2)).
        unfold io._multiplexwatcher.on_owner in Hown.
        unfold bind at 1, get at 1 in Hown.
        destruct (_watcher_ref (io.deref id s)) as [o|].
        2:{ unfold ret in Hown. by injection Hown as <-. }
        destruct (bool_decide (o = self_id (bw s))); [|discriminate Hown].
        unfold io._multiplex_closed, bind, get in Hown.
        rewrite Hnone in Hown. discriminate Hown. }
      destruct (IH s1 s' Hn1 Hrun) as [Hn' Hms].
      split; [exact Hn'|]. constructor; [by exists id | exact Hms].
Qed.

Lemma set_events_frame `{B : Base io_ext} (events : Z) (s s' : obj io_ext) :
  io._set_events events s = Ok tt s' ->
  _events (ext s') = events
  /\ bw s' = bw s
  /\ objects (ext s') = objects (ext s)
  /\ _multiplex_watchers (ext s') = _multiplex_watchers (ext s)
  /\ next_id (ext s') = next_id (ext s)
  /\ invoked (ext s') = invoked (ext s).
Proof.
  intros Hrun. unfold io._set_events in Hrun.
  unfold bind at 1, get at 1 in Hrun.
  destruct (events =? _events (ext s)) eqn:Heq.
  { injection Hrun as <-. apply Z.eqb_eq in Heq. by repeat split. }
  unfold bind at 1, modify at 1 in Hrun. unfold bind at 1, get at 1 in Hrun.
  set (s1 := io.set_events events s) in *.
  destruct (inherited.active s1).
  - destruct (_handle (bw s1)); [|discriminate Hrun].
    unfold bind, in_env, zoom in Hrun.
    destruct (_LIB _ _ _) as [r w'|e w']; [|discriminate Hrun].
    unfold ret in Hrun. injection Hrun as <-. by repeat split.
  - unfold ret in Hrun. injection Hrun as <-. by repeat split.
Qed.

(** X12.  A [multiplex(events)] that returns hands out a new sub-watcher:
    it is appended last to the list, carries the requested mask, is not
    started and refers to this io watcher; and the stored mask is the
    union of the masks of all sub-watchers now registered. *)
Theorem multiplex_appends_unstarted `{B : Base io_ext} (events : Z)
    (s s' : obj io_ext) (id : nat) :
  io.multiplex events s = Ok id s' ->
  id = next_id (ext s)
  /\ io.watchers s' = io.watchers s ++ [id]
  /\ io.deref id s' = MW events None (Some []) false (Some (self_id (bw s)))
  /\ (forall j : nat, j <> id -> io.deref j s' = io.deref j s)
  /\ _events (ext s') = union_of_masks s' (io.watchers s').
Proof.
  intros Hrun. unfold io.multiplex in Hrun.
  unfold bind at 1, get at 1 in Hrun.
  unfold bind at 1, modify at 1 in Hrun.
  destruct (_multiplex_watchers (ext s)) as [l|] eqn:Hl; [|discriminate Hrun].
  unfold bind at 1, modify at 1 in Hrun. unfold bind at 1 in Hrun.
  match type of Hrun with
  | context [io._calc_and_update_events ?x] => set (s1 := x) in *
  end.
  destruct (io._calc_and_update_events s1) as [[] s2|e s2] eqn:Hcalc;
    [|discriminate Hrun].
  unfold ret in Hrun. injection Hrun as <- <-.
  unfold io._calc_and_update_events, bind, get in Hcalc.
  destruct (set_events_frame _ s1 s2 Hcalc) as (Hev & Hb & Ho & Hm & _).
  assert (Hd : forall j, io.deref j s2 = io.deref j s1)
    by (intros j; by apply deref_objects).
  assert (Hw2 : io.watchers s2 = l ++ [next_id (ext s)])
    by (unfold io.watchers; by rewrite Hm).
  split; [reflexivity|]. split.
  { rewrite Hw2. unfold io.watchers. by rewrite Hl. }
  split.
  { rewrite Hd. unfold io.deref. subst s1.
    cbn [ext set_ext io.set_multiplex_watchers io.new_object objects].
    by rewrite lookup_insert_eq. }
  split.
  { intros j Hne. rewrite Hd. unfold io.deref. subst s1.
    cbn [ext set_ext io.set_multiplex_watchers io.new_object objects].
    by rewrite lookup_insert_ne. }
  rewrite Hev, Hw2. change (io.watchers s1) with (l ++ [next_id (ext s)]).
  symmetry. apply union_of_masks_ext. intros i. by rewrite Hd.
Qed.

(** X13.  [stop()] of a sub-watcher clears its callback and arguments.
    While another registered sub-watcher is still started the io watcher
    is left running: the inherited [stop] is not called.  When no other
    one is started, the inherited [stop] is called. *)
Theorem sub_watcher_stop_keeps_io_while_needed `{B : Base io_ext} (id : nat)
    (s : obj io_ext) :
  _watcher_ref (io.deref id s) = Some (self_id (bw s)) ->
  ((exists j : nat, In j (io.watchers s) /\ j <> id
                    /\ mw_callback (io.deref j s) <> None) ->
     io._multiplexwatcher.stop id s = Ok tt (stopped_sub id s))
  /\ ((forall j : nat, In j (io.watchers s) -> j <> id ->
                       mw_callback (io.deref j s) = None) ->
     io._multiplexwatcher.stop id s = inherited.stop (stopped_sub id s)).
Proof.
  intros Href.
  assert (Hd : forall j, io.deref j (stopped_sub id s)
                         = if decide (j = id)
                           then MW (mw_events (io.deref id s)) None None false
                                   (_watcher_ref (io.deref id s))
                           else io.deref j s)
    by (intros j; apply deref_set_object).
  assert (Hhead : io._multiplexwatcher.stop id s
                  = io._io_maybe_stop (stopped_sub id s)).
  { unfold io._multiplexwatcher.stop, io._multiplexwatcher.on_owner.
    unfold bind at 1, modify at 1. fold (stopped_sub id s).
    unfold bind at 1, get at 1. rewrite (Hd id).
    destruct (decide (id = id)); [|done]. cbn [_watcher_ref]. rewrite Href.
    by rewrite bool_decide_true. }
  rewrite Hhead. unfold io._io_maybe_stop, bind, get.
  change (io.watchers (stopped_sub id s)) with (io.watchers s).
  split.
  - intros (j & Hin & Hne & Hcb).
    assert (Hex : existsb (fun i => bool_decide
                             (mw_callback (io.deref i (stopped_sub id s)) <> None))
                          (io.watchers s) = true).
    { apply existsb_exists. exists j. split; [exact Hin|].
      rewrite Hd. destruct (decide (j = id)); [done|].
      by apply bool_decide_eq_true. }
    by rewrite Hex.
  - intros Hall.
    assert (Hex : existsb (fun i => bool_decide
                             (mw_callback (io.deref i (stopped_sub id s)) <> None))
                          (io.watchers s) = false).
    { apply not_true_is_false. intros Hex. apply existsb_exists in Hex.
      destruct Hex as (j & Hin & Hj). apply bool_decide_eq_true in Hj.
      rewrite Hd in Hj. destruct (decide (j = id)); [by apply Hj|].
      apply Hj. by apply Hall. }
    by rewrite Hex.
Qed.

(** X14.  Start, then an event.  A listed sub-watcher that refers to this
    io watcher is started with [callback] and [args] while the io watcher
    is already active, and the other started sub-watchers are in order.
    An event that meets its mask (or a negative status) then reaches
    [callback], as long as the callbacks the dispatch calls return and
    leave the io watcher and its sub-watchers alone: it is called with
    [args], with the event bits in front exactly when [pass_events] was
    given a true value. *)
Theorem start_then_event_calls_back `{B : Base io_ext}
    (run : cb -> list pyval -> M (obj io_ext) unit) (id : nat)
    (callback : cb) (args : list pyval) (kwargs : list (string * pyval))
    (events : Z) (s : obj io_ext) (fuel : nat) :
  In id (io.watchers s) ->
  _watcher_ref (io.deref id s) = Some (self_id (bw s)) ->
  inherited.active (started_sub id callback args kwargs s) = true ->
  Forall (sub_watcher_ok s) (io.watchers s) ->
  Z.land events (mw_events (io.deref id s)) <> 0 \/ events < 0 ->
  (forall (c : cb) (a : list pyval),
     In (c, a) (deliveries events
                  (sub_watchers (started_sub id callback args kwargs s))) ->
     leaves_io_alone run c a) ->
  (length (io.watchers s) < fuel)%nat ->
  exists s1 s' : obj io_ext,
    io._multiplexwatcher.start id callback args kwargs s = Ok tt s1
    /\ io._io_callback run fuel events s1 = Some (Ok tt s')
    /\ In (callback,
           if truth (kwargs_get "pass_events" kwargs)
           then PInt events :: args else args)
          (invoked (ext s')).
Proof.
  intros Hin Href Hact Hok Hev Hq Hfuel.
  set (s1 := started_sub id callback args kwargs s) in *.
  assert (Hd : forall j, io.deref j s1
                         = if decide (j = id)
                           then MW (mw_events (io.deref id s)) (Some callback)
                                   (Some args)
                                   (truth (kwargs_get "pass_events" kwargs))
                                   (_watcher_ref (io.deref id s))
                           else io.deref j s)
    by (intros j; apply deref_set_object).
  assert (Hstart : io._multiplexwatcher.start id callback args kwargs s
                   = Ok tt s1).
  { unfold io._multiplexwatcher.start, io._multiplexwatcher.on_owner.
    unfold bind at 1, modify at 1. fold (started_sub id callback args kwargs s).
    fold s1. unfold bind at 1, get at 1. rewrite (Hd id).
    destruct (decide (id = id)); [|done]. cbn [_watcher_ref]. rewrite Href.
    change (self_id (bw s1)) with (self_id (bw s)).
    rewrite bool_decide_true by reflexivity.
    unfold bind, get. cbv beta. by rewrite Hact. }
  assert (Hok1 : Forall (sub_watcher_ok s1) (io.watchers s1)).
  { change (io.watchers s1) with (io.watchers s).
    apply Forall_forall. intros j Hj. unfold sub_watcher_ok.
    change (self_id (bw s1)) with (self_id (bw s)). rewrite Hd.
    destruct (decide (j = id)) as [->|Hne].
    - intros _. cbn. split; [exact Href | discriminate].
    - rewrite Forall_forall in Hok. apply Hok. exact Hj. }
  assert (Hlist : _multiplex_watchers (ext s1) = Some (io.watchers s)).
  { change (_multiplex_watchers (ext s1)) with (_multiplex_watchers (ext s)).
    unfold io.watchers in Hin |- *.
    destruct (_multiplex_watchers (ext s)); [reflexivity | by destruct Hin]. }
  assert (Hw1 : io.watchers s1 = io.watchers s) by reflexivity.
  destruct (deliver_quiet run events (io.watchers s) (io.watchers s) 0 s1 fuel
              Hlist eq_refl Hfuel)
    as (s' & Hrun & _ & _ & _ & Hinv).
  { by rewrite <- Hw1. }
  { intros c a Hca. apply Hq. unfold sub_watchers. by rewrite Hw1. }
  exists s1, s'. split; [exact Hstart|]. split.
  { unfold io._io_callback. by rewrite Hlist. }
  rewrite Hinv. apply in_or_app. right. apply in_deliveries.
  exists (io.deref id s1). split; [|split; [|split]].
  - apply in_map_iff. exists id. split; [reflexivity | exact Hin].
  - rewrite Hd. destruct (decide (id = id)); [|done].
    reflexivity.
  - apply wants_iff. rewrite Hd. destruct (decide (id = id)); [|done].
    exact Hev.
  - rewrite Hd. destruct (decide (id = id)); [|done]. reflexivity.
Qed.

(** X15.  A failed change of mask is not undone.  When [_set_events] is
    given a new mask on an active io watcher and [uv_poll_start] reports a
    negative status, the call raises [UVFuncallError]; the new mask is
    already stored in [_events], while the handle is still armed with the
    old one. *)
Theorem set_events_failure_keeps_new_mask `{B : Base io_ext} (events : Z)
    (s : obj io_ext) (p : ptr) :
  events <> _events (ext s) ->
  inherited.active (io.set_events events s) = true ->
  _handle (bw s) <> None ->
  _watcher (bw s) = Some p ->
  uv_rc (sys (env s)) F_poll_start [PCData p; PInt events; _watcher_callback] < 0 ->
  exists (msg : string) (s' : obj io_ext),
    io._set_events events s = Raise (UVFuncallError msg) s'
    /\ _events (ext s') = events
    /\ handle_mask s' = handle_mask s
    /\ uv_calls (env s')
       = uv_calls (env s)
           ++ [(F_poll_start, [PCData p; PInt events; _watcher_callback])].
Proof.
  intros Hne Hact Hh Hw Hrc.
  unfold io._set_events. unfold bind at 1, get at 1.
  apply Z.eqb_neq in Hne. rewrite Hne.
  unfold bind at 1, modify at 1. unfold bind at 1, get at 1.
  rewrite Hact. change (_handle (bw (io.set_events events s))) with (_handle (bw s)).
  destruct (_handle (bw s)) as [h|]; [|done].
  unfold bind, in_env, zoom, _LIB. rewrite wrap_unfold.
  change (bw (io.set_events events s)) with (bw s).
  change (env (io.set_events events s)) with (env s).
  unfold watcher_arg. rewrite Hw.
  cbn [native_args isinstance_watcher libuv].
  change (_events (ext (io.set_events events s))) with events.
  unfold _watcher_callback at 1. unfold fallible.
  apply Z.ltb_lt in Hrc. rewrite Hrc.
  eexists _, _. split; [reflexivity|].
  split; [reflexivity|]. split; [|reflexivity].
  unfold handle_mask. cbn [bw set_env env io.set_events set_ext]. rewrite Hw.
  unfold armed_mask. by rewrite mem_log_call.
Qed.

(** ** Instances *)

Example sub_watcher_close_is_idempotent_witness :
  let s' := final_state (io._multiplexwatcher.close (B := io_base) 0 fd7_read_write) in
  io._multiplexwatcher.close (B := io_base) 0 s' = Ok tt s'
  /\ _watcher_ref (io.deref 0 s') = None
  /\ io._multiplexwatcher.fd 0 s' = -1.
Proof.
  intros s'.
  assert (Hrun : io._multiplexwatcher.close (B := io_base) 0 fd7_read_write
                 = Ok tt s') by (vm_compute; reflexivity).
  exact (sub_watcher_close_is_idempotent (B := io_base) 0 fd7_read_write s' Hrun).
Defined.

Example io_close_twice_raises_witness :
  let s1 := final_state (io.close (B := io_base) fd7_reading) in
  io.close (B := io_base) s1 = Raise AttributeError s1.
Proof.
  intros s1.
  assert (Hfirst : io.close (B := io_base) fd7_reading = Ok tt s1)
    by (vm_compute; reflexivity).
  assert (Hclose : inherited.close (Base := io_base) s1 = Ok tt s1)
    by (vm_compute; reflexivity).
  exact (io_close_twice_raises (B := io_base) fd7_reading s1 s1
           Hfirst Hclose eq_refl).
Defined.

Example closed_down_stays_closed_down_witness :
  let s := final_state (io._multiplexwatcher.close (B := io_base) 0 fd7_last_reader) in
  let s' := final_state (mutate_all (B := io_base) [CloseSub 0; CloseSub 0] s) in
  _multiplex_watchers (ext s') = None
  /\ only_closes [CloseSub 0; CloseSub 0].
Proof.
  intros s s'.
  assert (Hnone : _multiplex_watchers (ext s) = None)
    by (vm_compute; reflexivity).
  assert (Hrun : mutate_all (B := io_base) [CloseSub 0; CloseSub 0] s = Ok tt s')
    by (vm_compute; reflexivity).
  exact (closed_down_stays_closed_down (B := io_base)
           [CloseSub 0; CloseSub 0] s s' Hnone Hrun).
Defined.

Example multiplex_appends_unstarted_witness :
  let s' := final_state (io.multiplex (B := io_base) UV_WRITABLE fd7_reading) in
  io.watchers s' = io.watchers fd7_reading ++ [1%nat]
  /\ io.deref 1 s'
     = MW UV_WRITABLE None (Some []) false (Some (self_id (bw fd7_reading)))
  /\ _events (ext s') = union_of_masks s' (io.watchers s').
Proof.
  intros s'.
  assert (Hrun : io.multiplex (B := io_base) UV_WRITABLE fd7_reading = Ok 1%nat s')
    by (vm_compute; reflexivity).
  destruct (multiplex_appends_unstarted (B := io_base) UV_WRITABLE
              fd7_reading s' 1 Hrun) as (_ & Hl & Hobj & _ & Hmask).
  split; [exact Hl|]. split; [exact Hobj | exact Hmask].
Defined.

Example sub_watcher_stop_keeps_io_while_needed_witness :
  io._multiplexwatcher.stop (B := io_base) 0 fd7_read_write
  = Ok tt (stopped_sub 0 fd7_read_write)
  /\ io._multiplexwatcher.stop (B := io_base) 0 fd7_last_reader
     = inherited.stop (Base := io_base) (stopped_sub 0 fd7_last_reader).
Proof.
  split.
  - assert (Href : _watcher_ref (io.deref 0 fd7_read_write)
                   = Some (self_id (bw fd7_read_write)))
      by (vm_compute; reflexivity).
    apply (proj1 (sub_watcher_stop_keeps_io_while_needed (B := io_base) 0
                    fd7_read_write Href)).
    exists 1%nat. split; [right; left; reflexivity|].
    split; [discriminate | vm_compute; discriminate].
  - assert (Href : _watcher_ref (io.deref 0 fd7_last_reader)
                   = Some (self_id (bw fd7_last_reader)))
      by (vm_compute; reflexivity).
    apply (proj2 (sub_watcher_stop_keeps_io_while_needed (B := io_base) 0
                    fd7_last_reader Href)).
    intros j [<-|[]] Hne. by destruct Hne.
Defined.

Example start_then_event_calls_back_witness :
  exists s1 s' : obj io_ext,
    io._multiplexwatcher.start (B := io_base) 1 12 [PStr "x"]
      [("pass_events", PInt 1)] fd7_read_only_started = Ok tt s1
    /\ io._io_callback returns_at_once 3 UV_WRITABLE s1 = Some (Ok tt s')
    /\ In (12%nat, [PInt UV_WRITABLE; PStr "x"]) (invoked (ext s')).
Proof.
  assert (Hin : In 1%nat (io.watchers fd7_read_only_started))
    by (right; left; reflexivity).
  assert (Href : _watcher_ref (io.deref 1 fd7_read_only_started)
                 = Some (self_id (bw fd7_read_only_started)))
    by (vm_compute; reflexivity).
  assert (Hact : inherited.active (Base := io_base)
                   (started_sub 1 12 [PStr "x"] [("pass_events", PInt 1)]
                      fd7_read_only_started) = true)
    by (vm_compute; reflexivity).
  assert (Hok : Forall (sub_watcher_ok fd7_read_only_started)
                       (io.watchers fd7_read_only_started)).
  { change (io.watchers fd7_read_only_started) with [0%nat; 1%nat].
    apply List.Forall_cons; [|apply List.Forall_cons; [|apply List.Forall_nil]].
    - intros _. split; [vm_compute; reflexivity | vm_compute; discriminate].
    - intros Hcb. exfalso. apply Hcb. vm_compute. reflexivity. }
  assert (Hev : Z.land UV_WRITABLE (mw_events (io.deref 1 fd7_read_only_started)) <> 0
                \/ UV_WRITABLE < 0)
    by (left; vm_compute; discriminate).
  assert (Hfuel : (length (io.watchers fd7_read_only_started) < 3)%nat)
    by (vm_compute; lia).
  apply (start_then_event_calls_back (B := io_base) returns_at_once 1 12
           [PStr "x"] [("pass_events", PInt 1)] UV_WRITABLE
           fd7_read_only_started 3 Hin Href Hact Hok Hev);
    [|exact Hfuel].
  intros c a _. intros t. exists t. by repeat split.
Defined.

Example set_events_failure_keeps_new_mask_witness :
  let s := on_platform sys_ebadf fd7_read_only_started in
  exists (msg : string) (s' : obj io_ext),
    io._set_events (B := io_base) UV_READABLE s = Raise (UVFuncallError msg) s'
    /\ _events (ext s') = UV_READABLE
    /\ handle_mask s' = handle_mask s
    /\ handle_mask s = Some 3.
Proof.
  intros s.
  assert (Hne : UV_READABLE <> _events (ext s)) by (vm_compute; discriminate).
  assert (Hact : inherited.active (Base := io_base)
                   (io.set_events UV_READABLE s) = true)
    by (vm_compute; reflexivity).
  assert (Hh : _handle (bw s) <> None) by (vm_compute; discriminate).
  assert (Hw : _watcher (bw s) = Some 1%nat) by (vm_compute; reflexivity).
  assert (Hrc : uv_rc (sys (env s)) F_poll_start
                  [PCData 1; PInt UV_READABLE; _watcher_callback] < 0)
    by (vm_compute; reflexivity).
  assert (Hmask : handle_mask s = Some 3) by (vm_compute; reflexivity).
  destruct (set_events_failure_keeps_new_mask (B := io_base) UV_READABLE s 1
              Hne Hact Hh Hw Hrc) as (msg & s' & Hrun & Hev & Hhm & _).
  exists msg, s'. split; [exact Hrun|]. split; [exact Hev|].
  split; [exact Hhm | exact Hmask].
Defined.

(** ** The stat watcher's interval *)

Lemma min_stat_interval_ms :
  int_of_float (MIN_STAT_INTERVAL * 1000) = inr 107.
Proof. vm_compute. reflexivity. Qed.

(** X16.  Arming a stat watcher never leaves its interval below
    [MIN_STAT_INTERVAL], however the arming ends.  An interval below it is
    replaced before the native call, which is then given 107 ms.  An
    interval that is NaN is not replaced, and its conversion raises
    [ValueError] before any native call. *)
Theorem stat_start_floors_interval
    (uv_fs_poll_start : list pyval -> list (string * pyval) -> M world (option Z))
    (s : obj stat_ext) :
  let run := stat._watcher_ffi_start uv_fs_poll_start s in
  (_interval (ext (final_state run)) <? MIN_STAT_INTERVAL)%float = false
  /\ ((_interval (ext s) <? MIN_STAT_INTERVAL)%float = true ->
      _interval (ext (final_state run)) = MIN_STAT_INTERVAL
      /\ run = (in_env (stat._watcher_start uv_fs_poll_start
                          [PWatcher (self_id (bw s)); watcher_arg (bw s);
                           _watcher_callback; PStr (_cpath (ext s)); PInt 107]) ;;;
                ret tt) (stat.set_interval MIN_STAT_INTERVAL s))
  /\ (Prim2SF (_interval (ext s)) = S754_nan ->
      run = Raise (ValueError "cannot convert float NaN to integer") s).
Proof.
  intros run.
  assert (Hkeep : forall (s1 : obj stat_ext) (c : M world (option Z)),
            ext (final_state ((in_env c ;;; ret tt) s1)) = ext s1).
  { intros s1 c. unfold bind, in_env, zoom, ret.
    by destruct (c (env s1)). }
  assert (Hlow : (_interval (ext s) <? MIN_STAT_INTERVAL)%float = true ->
            run = (in_env (stat._watcher_start uv_fs_poll_start
                             [PWatcher (self_id (bw s)); watcher_arg (bw s);
                              _watcher_callback; PStr (_cpath (ext s)); PInt 107]) ;;;
                   ret tt) (stat.set_interval MIN_STAT_INTERVAL s)).
  { intros Hlt. subst run. unfold stat._watcher_ffi_start.
    unfold bind at 1, get at 1. rewrite Hlt.
    unfold bind at 1, modify at 1. unfold bind at 1, get at 1.
    unfold bind at 1, int_.
    change (_interval (ext (stat.set_interval MIN_STAT_INTERVAL s)))
      with MIN_STAT_INTERVAL.
    rewrite min_stat_interval_ms. reflexivity. }
  split; [|split].
  - destruct (_interval (ext s) <? MIN_STAT_INTERVAL)%float eqn:Hlt.
    + rewrite (Hlow eq_refl), Hkeep. vm_compute. reflexivity.
    + subst run. unfold stat._watcher_ffi_start.
      unfold bind at 1, get at 1. rewrite Hlt.
      unfold bind at 1, ret at 1. unfold bind at 1, get at 1.
      unfold bind at 1, int_.
      destruct (int_of_float (_interval (ext s) * 1000)) as [e|ms].
      * exact Hlt.
      * unfold ret at 1. rewrite Hkeep. exact Hlt.
  - intros Hlt. split; [|exact (Hlow Hlt)].
    rewrite (Hlow Hlt), Hkeep. reflexivity.
  - intros Hnan. subst run. unfold stat._watcher_ffi_start.
    assert (Hlt : (_interval (ext s) <? MIN_STAT_INTERVAL)%float = false)
      by (rewrite FloatAxioms.ltb_spec, Hnan; reflexivity).
    assert (Hmul : int_of_float (_interval (ext s) * 1000)
                   = inl (ValueError "cannot convert float NaN to integer")).
    { unfold int_of_float. rewrite FloatAxioms.mul_spec, Hnan. reflexivity. }
    unfold bind at 1, get at 1. rewrite Hlt.
    unfold bind at 1, ret at 1. unfold bind at 1, get at 1.
    unfold bind at 1, int_. rewrite Hmul. reflexivity.
Qed.

Example stat_start_floors_interval_witness :
  let s := stat_on "/tmp/f" 0 in
  let run := stat._watcher_ffi_start fs_poll_start_ok s in
  _interval (ext (final_state run)) = MIN_STAT_INTERVAL
  /\ uv_now (env (final_state run)) = 107
  /\ stat._watcher_ffi_start fs_poll_start_ok (stat_on "/tmp/f" nan)
     = Raise (ValueError "cannot convert float NaN to integer")
             (stat_on "/tmp/f" nan).
Proof.
  intros s run.
  destruct (stat_start_floors_interval fs_poll_start_ok s) as (_ & Hlow & _).
  destruct (Hlow eq_refl) as (Hint & Hrun).
  destruct (stat_start_floors_interval fs_poll_start_ok (stat_on "/tmp/f" nan))
    as (_ & _ & Hnan).
  split; [exact Hint|]. split; [|exact (Hnan eq_refl)].
  subst run. rewrite Hrun. vm_compute. reflexivity.
Defined.

(** ** The child watcher's exit status *)

(** X17.  [_set_waitpid_status] stores the pid and the status before it
    wakes the loop: when the async handle is closing, [send()] raises
    "Closing handle" and makes no native call, yet the pid and status are
    already stored; otherwise exactly one [uv_async_send] on the async
    watcher's handle is made. *)
Theorem child_status_stored_before_send (pid status : Z) (s : obj sim_ext)
    (a : base_fields) (p : ptr) :
  _async (ext s) = Some a ->
  _watcher a = Some p ->
  exists s' : obj sim_ext,
    child._set_waitpid_status pid status s
    = (if uv_is_closing p (env s)
       then Raise (Exception_ "Closing handle") s' else Ok tt s')
    /\ _rpid (ext s') = Some pid
    /\ _rstatus (ext s') = Some status
    /\ _async (ext s') = Some a
    /\ uv_calls (env s')
       = uv_calls (env s)
           ++ (if uv_is_closing p (env s) then []
               else [(F_async_send, [PCData p])]).
Proof.
  intros Ha Hw.
  unfold child._set_waitpid_status, bind, modify,
    _SimulatedWithAsyncMixin.on_async.
  cbn [ext set_ext _SimulatedWithAsyncMixin.set_waitpid _async env].
  rewrite Ha. unfold async_.send. cbn [bw env]. rewrite Hw.
  destruct (uv_is_closing p (env s)).
  - eexists. split; [reflexivity|]. cbn. rewrite app_nil_r. by repeat split.
  - eexists. split; [reflexivity|]. cbn. by repeat split.
Qed.

Example child_status_stored_before_send_witness :
  (exists s' : obj sim_ext,
     child._set_waitpid_status 4242 0 (child_with_async false) = Ok tt s'
     /\ _rpid (ext s') = Some 4242
     /\ uv_calls (env s') = [(F_async_send, [PCData 1])])
  /\ (exists s' : obj sim_ext,
        child._set_waitpid_status 4242 9 (child_with_async true)
        = Raise (Exception_ "Closing handle") s'
        /\ _rpid (ext s') = Some 4242
        /\ _rstatus (ext s') = Some 9
        /\ uv_calls (env s') = []).
Proof.
  split.
  - destruct (child_status_stored_before_send 4242 0 (child_with_async false)
                (stopped_base 2 1) 1 eq_refl eq_refl)
      as (s' & Hrun & Hpid & _ & _ & Hcalls).
    exists s'. split; [exact Hrun|]. split; [exact Hpid | exact Hcalls].
  - destruct (child_status_stored_before_send 4242 9 (child_with_async true)
                (stopped_base 2 1) 1 eq_refl eq_refl)
      as (s' & Hrun & Hpid & Hst & _ & Hcalls).
    exists s'. split; [exact Hrun|]. split; [exact Hpid|].
    split; [exact Hst | exact Hcalls].
Defined.

(** ** The async watcher's stop and start steps *)

(** X18.  The stop step of an async watcher needs a handle: without one it
    raises [AttributeError].  With one, it clears the handle's callback and
    drops the handle's loop reference with one [uv_unref]; the start step
    that follows sets the callback again, makes no native call and leaves
    the handle unreferenced. *)
Theorem async_stop_unrefs_start_does_not_ref (s : obj unit) :
  match _watcher (bw s) with
  | None => async_._watcher_ffi_stop s = Raise AttributeError s
  | Some p =>
      exists s1 s2 : obj unit,
        async_._watcher_ffi_stop s = Ok tt s1
        /\ h_async_cb (mem p (env s1)) = false
        /\ uv_has_ref p (env s1) = false
        /\ uv_calls (env s1) = uv_calls (env s) ++ [(F_unref, [PCData p])]
        /\ async_._watcher_ffi_start s1 = Ok tt s2
        /\ h_async_cb (mem p (env s2)) = true
        /\ uv_has_ref p (env s2) = false
        /\ uv_calls (env s2) = uv_calls (env s1)
  end.
Proof.
  destruct (_watcher (bw s)) as [p|] eqn:Hw.
  - unfold async_._watcher_ffi_stop, async_._watcher_ffi_start,
      async_.set_async_cb, bind, watcher._watcher_ffi_unref, only_if_watcher,
      watcher.raw_on_watcher.
    rewrite Hw. cbn [bw set_env env]. rewrite Hw.
    eexists _, _. split; [reflexivity|]. cbn [bw set_env env]. rewrite Hw.
    unfold uv_unref, uv_has_ref.
    rewrite !mem_set_mem_eq, ?mem_log_call, ?mem_set_mem_eq.
    repeat split; cbn [env set_env]; rewrite !mem_set_mem_eq; reflexivity.
  - unfold async_._watcher_ffi_stop, async_.set_async_cb, bind.
    by rewrite Hw.
Qed.

(** ** The [ref] property *)

(** X19.  Reading back [ref] after setting it.  On a watcher that has a
    handle, [ref = value] makes exactly one native call, [uv_ref] or
    [uv_unref], and [ref] then reads as [value]; setting the same value
    again does not change what is read.  A watcher without a handle reads
    [None]. *)
Theorem ref_reads_back_what_was_set {X : Type} (s : obj X) (value : bool) :
  match _watcher (bw s) with
  | None => watcher._get_ref s = None
  | Some p =>
      exists s1 s2 : obj X,
        watcher._set_ref value s = Ok tt s1
        /\ watcher._get_ref s1 = Some value
        /\ uv_calls (env s1)
           = uv_calls (env s) ++ [(if value then F_ref else F_unref, [PCData p])]
        /\ watcher._set_ref value s1 = Ok tt s2
        /\ watcher._get_ref s2 = Some value
  end.
Proof.
  destruct (_watcher (bw s)) as [p|] eqn:Hw.
  - unfold watcher._set_ref, watcher._get_ref, watcher._watcher_ffi_ref,
      watcher._watcher_ffi_unref, only_if_watcher, watcher.raw_on_watcher.
    destruct value; rewrite Hw; eexists _, _;
      (split; [reflexivity|]); cbn [bw set_env env]; rewrite Hw;
      unfold uv_ref, uv_unref, uv_has_ref;
      repeat split; cbn [bw env set_env]; rewrite ?Hw, ?mem_set_mem_eq;
      reflexivity.
  - unfold watcher._get_ref. by rewrite Hw.
Qed.

(** ** The list of sub-watchers *)

Lemma list_remove_spec (x : nat) (l l' : list nat) :
  list_remove x l = Some l' ->
  NoDup l ->
  (x ∉ l') /\ NoDup l'
  /\ (forall y : nat, y ∈ l' <-> (y ∈ l) /\ y <> x).
Proof.
  revert l'. induction l as [|y l IH]; intros l' Hrm Hnd; [discriminate Hrm|].
  apply NoDup_cons in Hnd. destruct Hnd as [Hy Hnd].
  cbn [list_remove] in Hrm. destruct (decide (x = y)) as [->|Hne].
  - injection Hrm as <-. split; [exact Hy|]. split; [exact Hnd|].
    intros z. rewrite elem_of_cons. split.
    + intros Hz. split; [by right|]. by intros ->.
    + intros [[->|Hz] Hzy]; [done | exact Hz].
  - destruct (list_remove x l) as [l1|] eqn:Hl1; [|discriminate Hrm].
    cbn in Hrm. injection Hrm as <-.
    destruct (IH l1 eq_refl Hnd) as (Hx & Hnd1 & Hiff).
    split; [|split].
    + rewrite elem_of_cons. intros [Heq|Hin]; [by apply Hne | by apply Hx].
    + apply NoDup_cons. split; [|exact Hnd1].
      intros Hin. apply Hiff in Hin. by destruct Hin.
    + intros z. rewrite !elem_of_cons, Hiff. split.
      * intros [->|[Hz Hzx]]; [split; [by left | by intros ->; apply Hne]|].
        split; [by right | exact Hzx].
      * intros [[->|Hz] Hzx]; [by left | by right].
Qed.

Lemma multiplex_list `{B : Base io_ext} (events : Z) (s s' : obj io_ext)
    (id : nat) :
  io.multiplex events s = Ok id s' ->
  _multiplex_watchers (ext s') = Some (io.watchers s ++ [next_id (ext s)])
  /\ next_id (ext s') = S (next_id (ext s)).
Proof.
  intros Hrun. unfold io.multiplex in Hrun.
  unfold bind at 1, get at 1 in Hrun.
  unfold bind at 1, modify at 1 in Hrun.
  destruct (_multiplex_watchers (ext s)) as [l|] eqn:Hl; [|discriminate Hrun].
  unfold bind at 1, modify at 1 in Hrun. unfold bind at 1 in Hrun.
  match type of Hrun with
  | context [io._calc_and_update_events ?x] => set (s1 := x) in *
  end.
  destruct (io._calc_and_update_events s1) as [[] s2|e s2] eqn:Hcalc;
    [|discriminate Hrun].
  unfold ret in Hrun. injection Hrun as <- <-.
  unfold io._calc_and_update_events, bind, get in Hcalc.
  destruct (set_events_frame _ s1 s2 Hcalc) as (_ & _ & _ & Hm & Hn & _).
  rewrite Hm, Hn. unfold io.watchers. rewrite Hl. split; reflexivity.
Qed.

Lemma close_sub_list `{B : Base io_ext} (id : nat) (s s' : obj io_ext) :
  io._multiplexwatcher.close id s = Ok tt s' ->
  match _watcher_ref (io.deref id s) with
  | None => s' = forget_owner id s
  | Some _ =>
      exists l l' : list nat,
        _multiplex_watchers (ext s) = Some l
        /\ list_remove id l = Some l'
        /\ match l' with
           | [] => _multiplex_watchers (ext s') = None
           | _ :: _ => _multiplex_watchers (ext s') = Some l'
                       /\ next_id (ext s') = next_id (ext s)
           end
  end.
Proof.
  intros Hrun. unfold io._multiplexwatcher.close in Hrun.
  unfold bind at 1 in Hrun.
  destruct (io._multiplexwatcher.on_owner id (io._multiplex_closed id) s)
    as [[] s2|e s2] eqn:Hown; [|discriminate Hrun].
  assert (Hs' : s' = forget_owner id s2)
    by (unfold modify in Hrun; injection Hrun as <-; reflexivity).
  subst s'. clear Hrun.
  unfold io._multiplexwatcher.on_owner in Hown.
  unfold bind at 1, get at 1 in Hown.
  destruct (_watcher_ref (io.deref id s)) as [o|].
  2:{ unfold ret in Hown. by injection Hown as <-. }
  destruct (bool_decide (o = self_id (bw s))); [|discriminate Hown].
  unfold io._multiplex_closed in Hown. unfold bind at 1, get at 1 in Hown.
  destruct (_multiplex_watchers (ext s)) as [l|] eqn:Hl; [|discriminate Hown].
  destruct (list_remove id l) as [l'|] eqn:Hrm; [|discriminate Hown].
  exists l, l'. split; [reflexivity|]. split; [exact Hrm|].
  unfold bind at 1, modify at 1 in Hown.
  change (_multiplex_watchers (ext (forget_owner id s2)))
    with (_multiplex_watchers (ext s2)).
  change (next_id (ext (forget_owner id s2))) with (next_id (ext s2)).
  destruct l' as [|j l'].
  - unfold bind at 1 in Hown.
    destruct (inherited.stop _) as [[] s3|e s3]; [|discriminate Hown].
    unfold bind at 1, io._no_more_watchers, ret at 1 in Hown.
    exact (io_close_drops_list s3 s2 Hown).
  - unfold io._calc_and_update_events, bind, get in Hown.
    destruct (set_events_frame _ _ s2 Hown) as (_ & _ & _ & Hm & Hn & _).
    rewrite Hm, Hn. split; reflexivity.
Qed.

(** X20.  Every [multiplex()] hands out an object that is not yet in the
    list, and [close()] of a sub-watcher takes objects out only: over any
    sequence of these calls that return, the registered sub-watchers stay
    pairwise distinct, all of them created by this io watcher. *)
Theorem sub_watchers_stay_distinct `{B : Base io_ext} (ms : list mutation) :
  forall s s' : obj io_ext,
    well_listed s -> mutate_all ms s = Ok tt s' -> well_listed s'.
Proof.
  induction ms as [|m ms IH]; intros s s' Hwl Hrun.
  - unfold mutate_all, ret in Hrun. by injection Hrun as <-.
  - cbn [mutate_all] in Hrun. unfold bind at 1 in Hrun.
    destruct (mutate m s) as [[] s1|e s1] eqn:Hm; [|discriminate Hrun].
    apply (IH s1 s'); [|exact Hrun]. clear IH Hrun.
    destruct Hwl as [Hnd Hlt].
    destruct m as [events|id]; cbn [mutate] in Hm.
    + unfold bind in Hm.
      destruct (io.multiplex events s) as [id s2|e s2] eqn:Hmx;
        [|discriminate Hm].
      unfold ret in Hm. injection Hm as <-.
      destruct (multiplex_list events s s2 id Hmx) as [Hl Hn].
      unfold well_listed, io.watchers. rewrite Hl, Hn. cbn [default]. split.
      * apply NoDup_app. split; [exact Hnd|]. split; [|apply NoDup_singleton].
        intros x Hx Hx'. apply list_elem_of_singleton in Hx'. subst x.
        rewrite Forall_forall in Hlt. specialize (Hlt _ Hx). lia.
      * apply Forall_app. split.
        -- eapply Forall_impl; [exact Hlt|]. cbv beta. intros; lia.
        -- apply Forall_singleton. lia.
    + pose proof (close_sub_list id s s1 Hm) as Hcl.
      destruct (_watcher_ref (io.deref id s)) as [o|].
      2:{ subst s1. split; [exact Hnd | exact Hlt]. }
      destruct Hcl as (l & l' & Hl & Hrm & Hres).
      unfold io.watchers in Hnd, Hlt. rewrite Hl in Hnd, Hlt.
      cbn [default] in Hnd, Hlt.
      destruct (list_remove_spec id l l' Hrm Hnd) as (_ & Hnd' & Hiff).
      unfold well_listed, io.watchers. destruct l' as [|j l'].
      * rewrite Hres. cbn [default]. split; [apply NoDup_nil_2 | constructor].
      * destruct Hres as [Hres Hn]. rewrite Hres, Hn. cbn [default].
        split; [exact Hnd'|]. apply Forall_forall. intros x Hx.
        rewrite Forall_forall in Hlt. apply Hlt. by apply Hiff.
Qed.

(** X21.  After [close()] of a sub-watcher that belongs to this io watcher
    has returned, that sub-watcher is no longer in the list, so no later
    event is dispatched to it; no other object enters the list, and unless
    it was the last one every other sub-watcher stays registered. *)
Theorem closed_sub_watcher_is_unlisted `{B : Base io_ext} (id : nat)
    (s s' : obj io_ext) :
  NoDup (io.watchers s) ->
  _watcher_ref (io.deref id s) <> None ->
  io._multiplexwatcher.close id s = Ok tt s' ->
  (id ∈ io.watchers s)
  /\ (id ∉ io.watchers s')
  /\ (forall j : nat, j ∈ io.watchers s' -> j ∈ io.watchers s)
  /\ (_multiplex_watchers (ext s') <> None ->
      forall j : nat, j ∈ io.watchers s -> j <> id -> j ∈ io.watchers s').
Proof.
  intros Hnd Href Hrun.
  pose proof (close_sub_list id s s' Hrun) as Hcl.
  destruct (_watcher_ref (io.deref id s)) as [o|]; [|done].
  destruct Hcl as (l & l' & Hl & Hrm & Hres).
  unfold io.watchers in *. rewrite Hl in *. cbn [default] in *.
  destruct (list_remove_spec id l l' Hrm Hnd) as (Hnotin & _ & Hiff).
  assert (Hin : id ∈ l).
  { clear -Hrm. revert l' Hrm. induction l as [|y l IH]; intros l' Hrm;
      [discriminate Hrm|].
    cbn [list_remove] in Hrm. destruct (decide (id = y)) as [->|Hne];
      [by left|].
    destruct (list_remove id l) as [l1|] eqn:Hl1; [|discriminate Hrm].
    right. by apply (IH l1). }
  split; [exact Hin|].
  destruct l' as [|j0 l'].
  - rewrite Hres. cbn [default]. split; [apply not_elem_of_nil|].
    split; [intros j Hj; by apply elem_of_nil in Hj | done].
  - destruct Hres as [Hres _]. rewrite Hres. cbn [default].
    split; [exact Hnotin|]. split.
    + intros j Hj. by apply Hiff.
    + intros _ j Hj Hne. by apply Hiff.
Qed.

Example sub_watchers_stay_distinct_witness :
  let ms := [Multiplex UV_WRITABLE; CloseSub 0; Multiplex UV_READABLE] in
  well_listed (final_state (mutate_all (B := io_base) ms fd7_reading)).
Proof.
  intros ms.
  set (s' := final_state (mutate_all (B := io_base) ms fd7_reading)).
  assert (Hwl : well_listed fd7_reading).
  { split.
    - change (io.watchers fd7_reading) with [0%nat]. apply NoDup_singleton.
    - change (io.watchers fd7_reading) with [0%nat].
      apply Forall_singleton. vm_compute. lia. }
  assert (Hrun : mutate_all (B := io_base) ms fd7_reading = Ok tt s')
    by (vm_compute; reflexivity).
  exact (sub_watchers_stay_distinct (B := io_base) ms fd7_reading s' Hwl Hrun).
Defined.

Example closed_sub_watcher_is_unlisted_witness :
  let s' := final_state (io._multiplexwatcher.close (B := io_base) 0 fd7_read_write) in
  (0%nat ∉ io.watchers s') /\ (1%nat ∈ io.watchers s').
Proof.
  intros s'.
  assert (Hnd : NoDup (io.watchers fd7_read_write)).
  { change (io.watchers fd7_read_write) with [0%nat; 1%nat].
    apply NoDup_cons. split; [|apply NoDup_singleton].
    intros Hin. apply list_elem_of_singleton in Hin. discriminate Hin. }
  assert (Href : _watcher_ref (io.deref 0 fd7_read_write) <> None)
    by (vm_compute; discriminate).
  assert (Hrun : io._multiplexwatcher.close (B := io_base) 0 fd7_read_write
                 = Ok tt s') by (vm_compute; reflexivity).
  assert (Hlist : _multiplex_watchers (ext s') <> None)
    by (vm_compute; discriminate).
  destruct (closed_sub_watcher_is_unlisted (B := io_base) 0 fd7_read_write s'
              Hnd Href Hrun) as (_ & Hout & _ & Hrest).
  split; [exact Hout|]. apply (Hrest Hlist).
  - change (io.watchers fd7_read_write) with [0%nat; 1%nat].
    apply elem_of_cons. right. apply list_elem_of_singleton. reflexivity.
  - discriminate.
Defined.

(** ** Fork watchers and the loop's collection *)

(** X22.  [start()] of a fork watcher registers it with the loop and stores
    the callback and arguments before it starts the async watcher, and
    [stop()] unregisters it and clears them before it stops the async
    watcher: this holds whether the async watcher's [start] and [stop]
    return or raise.  With the mixin's own [_register_loop_callback],
    [start()] raises [NotImplementedError] and changes nothing. *)
Theorem fork_registration_follows_start_and_stop `{BA : Base unit}
    (cb_ : cb) (a : list pyval) (s : obj sim_ext) :
  let started :=
    final_state
      (_SimulatedWithAsyncMixin.start fork._register_loop_callback cb_ a s) in
  let stopped :=
    final_state
      (_SimulatedWithAsyncMixin.stop fork._unregister_loop_callback started) in
  (registered (ext started) = true
   /\ callback (bw started) = Some cb_ /\ args (bw started) = Some a)
  /\ (registered (ext stopped) = false
      /\ callback (bw stopped) = None /\ args (bw stopped) = None)
  /\ _SimulatedWithAsyncMixin.start
       _SimulatedWithAsyncMixin._register_loop_callback cb_ a s
     = Raise NotImplementedError s.
Proof.
  assert (Hon : forall (c : M (obj unit) unit) (t : obj sim_ext),
            registered (ext (final_state (_SimulatedWithAsyncMixin.on_async c t)))
            = registered (ext t)
            /\ bw (final_state (_SimulatedWithAsyncMixin.on_async c t)) = bw t).
  { intros c t. unfold _SimulatedWithAsyncMixin.on_async.
    destruct (_async (ext t)) as [b|]; [|by split].
    by destruct (c (Obj b tt (env t))). }
  intros started stopped. split; [|split].
  - set (t := set_bw (with_callback (Some cb_) (Some a) (bw s))
                (_SimulatedWithAsyncMixin.set_registered true s)).
    assert (Heq : started
                  = final_state (_SimulatedWithAsyncMixin.on_async
                                   (inherited.start cb_ a []) t))
      by reflexivity.
    destruct (Hon (inherited.start cb_ a []) t) as [Hr Hb].
    rewrite Heq, Hr, Hb. by repeat split.
  - set (t := set_bw (with_callback None None (bw started))
                (_SimulatedWithAsyncMixin.set_registered false started)).
    assert (Heq : stopped
                  = final_state (_SimulatedWithAsyncMixin.on_async
                                   inherited.stop t))
      by reflexivity.
    destruct (Hon inherited.stop t) as [Hr Hb].
    rewrite Heq, Hr, Hb. by repeat split.
  - reflexivity.
Qed.

(** ** Callbacks that act on the list during the dispatch *)

Lemma set_events_final `{B : Base io_ext} (events : Z) (s : obj io_ext) :
  invoked (ext (final_state (io._set_events events s))) = invoked (ext s)
  /\ _multiplex_watchers (ext (final_state (io._set_events events s)))
     = _multiplex_watchers (ext s)
  /\ objects (ext (final_state (io._set_events events s))) = objects (ext s).
Proof.
  remember (io._set_events events s) as o eqn:Ho.
  unfold io._set_events in Ho. unfold bind at 1, get at 1 in Ho.
  destruct (events =? _events (ext s)); [by subst o|].
  unfold bind at 1, modify at 1 in Ho. unfold bind at 1, get at 1 in Ho.
  destruct (inherited.active (io.set_events events s)); [|by subst o].
  change (_handle (bw (io.set_events events s))) with (_handle (bw s)) in Ho.
  destruct (_handle (bw s)); [|by subst o].
  unfold bind, in_env, zoom in Ho.
  destruct (_LIB _ _ _); by subst o.
Qed.

(** [close()] of a sub-watcher that is not the last one: the record of
    calls is untouched however the call ends, and a call that returns
    leaves the list without the sub-watcher. *)
Lemma close_not_last `{B : Base io_ext} (id : nat) (s : obj io_ext)
    (l : list nat) (j : nat) (l' : list nat) :
  _watcher_ref (io.deref id s) = Some (self_id (bw s)) ->
  _multiplex_watchers (ext s) = Some l ->
  list_remove id l = Some (j :: l') ->
  invoked (ext (final_state (io._multiplexwatcher.close id s)))
  = invoked (ext s)
  /\ forall s1 : obj io_ext,
       io._multiplexwatcher.close id s = Ok tt s1 ->
       _multiplex_watchers (ext s1) = Some (j :: l').
Proof.
  intros Href Hl Hrm.
  remember (io._multiplexwatcher.close id s) as o eqn:Ho.
  unfold io._multiplexwatcher.close, io._multiplexwatcher.on_owner in Ho.
  unfold bind at 1 in Ho. unfold bind at 1, get at 1 in Ho.
  rewrite Href in Ho. rewrite bool_decide_true in Ho by reflexivity.
  unfold io._multiplex_closed in Ho. unfold bind at 1, get at 1 in Ho.
  rewrite Hl, Hrm in Ho. unfold bind at 1, modify at 1 in Ho.
  unfold io._calc_and_update_events in Ho. unfold bind at 1, get at 1 in Ho.
  match type of Ho with
  | context [io._set_events ?e ?t] =>
      destruct (set_events_final e t) as (Hinv & Hlist & _);
      destruct (io._set_events e t) as [[] s2|e2 s2]
  end; cbn [final_state] in Hinv, Hlist; unfold modify in Ho; subst o;
    cbn [final_state].
  - split; [exact Hinv|]. intros s1 [= <-]. exact Hlist.
  - split; [exact Hinv | discriminate].
Qed.

(** X23.  A callback that closes its own sub-watcher takes it out of the
    list the dispatch is walking, so the sub-watcher registered next is
    passed over.  With two registered sub-watchers, both started and both
    owed a call for the event, of which the first one's callback closes
    the first: only the first callback is called, whether that [close()]
    returns or raises. *)
Theorem self_closing_callback_skips_next `{B : Base io_ext}
    (run : cb -> list pyval -> M (obj io_ext) unit) (events : Z)
    (s : obj io_ext) (a b : nat) (ca cb_ : cb) (args_a args_b : list pyval)
    (fuel : nat) :
  _multiplex_watchers (ext s) = Some [a; b] ->
  sub_watcher_ok s a ->
  deliveries events (sub_watchers s) = [(ca, args_a); (cb_, args_b)] ->
  (forall t : obj io_ext,
     run ca args_a t = io._multiplexwatcher.close a t) ->
  (2 <= fuel)%nat ->
  exists o : outcome (obj io_ext) unit,
    io._io_callback run fuel events s = Some o
    /\ invoked (ext (final_state o)) = invoked (ext s) ++ [(ca, args_a)].
Proof.
  intros Hl Hok Hdel Hrun Hfuel.
  destruct fuel as [|[|fuel]]; [lia | lia |].
  assert (Ha : deliveries events [io.deref a s] = [(ca, args_a)]).
  { assert (Hw : io.watchers s = [a; b])
      by (unfold io.watchers; by rewrite Hl).
    unfold sub_watchers in Hdel. rewrite Hw in Hdel. cbn [map] in Hdel.
    rewrite deliveries_split, (deliveries_split events (io.deref b s)) in Hdel.
    rewrite deliveries_nil, app_nil_r in Hdel.
    destruct (deliveries_single events (io.deref a s)) as [He|[x He]];
      destruct (deliveries_single events (io.deref b s)) as [He'|[y He']];
      rewrite He, He' in Hdel; try discriminate Hdel.
    cbn in Hdel. injection Hdel as -> _. exact He. }
  assert (Href : _watcher_ref (io.deref a s) = Some (self_id (bw s))).
  { apply Hok. intros Hnone. rewrite deliveries_cons in Ha.
    unfold started in Ha. rewrite Hnone in Ha.
    rewrite bool_decide_false in Ha by (intros Hne; by apply Hne).
    discriminate Ha. }
  unfold io._io_callback. rewrite Hl. cbn [io.deliver].
  unfold io.iterated at 1. rewrite Hl. cbn [lookup list_lookup].
  rewrite (visit_unfold run events a s Hok), Ha, Hrun.
  destruct (close_not_last a (io.record ca args_a s) [a; b] b [])
    as [Hinv Hlist].
  { exact Href. }
  { exact Hl. }
  { cbn. by destruct (decide (a = a)). }
  destruct (io._multiplexwatcher.close a (io.record ca args_a s))
    as [[] s1|e s1]; cbn [final_state] in Hinv.
  - exists (Ok tt s1). unfold io.iterated.
    rewrite (Hlist s1 eq_refl). cbn [lookup list_lookup].
    split; [reflexivity | exact Hinv].
  - exists (Raise e s1). split; [reflexivity | exact Hinv].
Qed.

Example self_closing_callback_skips_next_witness :
  deliveries UV_READABLE (sub_watchers fd7_two_readers)
  = [(10%nat, []); (11%nat, [])]
  /\ exists o : outcome (obj io_ext) unit,
       io._io_callback (one_closes 10 0) 2 UV_READABLE fd7_two_readers = Some o
       /\ invoked (ext (final_state o)) = [(10%nat, [])].
Proof.
  assert (Hl : _multiplex_watchers (ext fd7_two_readers) = Some [0%nat; 1%nat])
    by reflexivity.
  assert (Hok : sub_watcher_ok fd7_two_readers 0).
  { intros _. split; [vm_compute; reflexivity | vm_compute; discriminate]. }
  assert (Hdel : deliveries UV_READABLE (sub_watchers fd7_two_readers)
                 = [(10%nat, []); (11%nat, [])])
    by (vm_compute; reflexivity).
  split; [exact Hdel|].
  exact (self_closing_callback_skips_next (B := io_base) (one_closes 10 0)
           UV_READABLE fd7_two_readers 0 1 10 11 [] [] 2 Hl Hok Hdel
           (fun t => eq_refl) (le_n 2)).
Defined.
